(** * A shallow embedding of the community/membership REST service

    The service is an Express application over a Prisma store: the route
    files [routes/User], [routes/Community], [routes/Role] and
    [routes/Member].  Handlers are embedded as pure functions from the
    store, the process environment, the clock and the request to a response
    and a new store.  Values handed to [res.json] are kept as JavaScript
    values, so that statements about response bodies talk about fields. *)

From Stdlib Require Import List String Ascii ZArith Bool Lia.
From Equations Require Import Equations.
Import ListNotations.

Open Scope string_scope.
Open Scope Z_scope.

Set Warnings "-register-all".

(** ** JavaScript values *)

(** The run-time values the handlers manipulate.  A string is either plain
    text ([VStr]) or the compact serialisation of a signed JSON web token
    ([VJwt payload key]: the text that [jwt.sign] produces for [payload]
    under the HMAC key [key]); the signature is symbolic, it verifies under
    [key] and under no other key.  Plain text is never a well-formed
    token.  Numbers are the integers.  A promise is known by the way it
    settles: [Some v] fulfils with [v], [None] rejects. *)
Inductive JsVal : Type :=
| VUndefined
| VNull
| VBool (b : bool)
| VNum (z : Z)
| VStr (s : string)
| VJwt (payload : list (string * JsVal)) (key : string)
| VDate (t : Z)
| VArr (items : list JsVal)
| VObj (fields : list (string * JsVal))
| VPromise (settles : option JsVal).

Definition JsObject := list (string * JsVal).

(** ToBoolean: what [!x], [x || y] and [if (x)] look at. *)
Definition truthy (v : JsVal) : bool :=
  match v with
  | VUndefined | VNull => false
  | VBool b => b
  | VNum z => negb (z =? 0)
  | VStr s => negb (String.eqb s "")
  | VJwt _ _ | VDate _ | VArr _ | VObj _ | VPromise _ => true
  end.

(** [a || b] *)
Definition js_or (a b : JsVal) : JsVal := if truthy a then a else b.

(** [o.k]: the first binding of [k], [undefined] when there is none. *)
Fixpoint get_prop (o : JsObject) (k : string) : JsVal :=
  match o with
  | [] => VUndefined
  | (k', v) :: rest => if String.eqb k' k then v else get_prop rest k
  end.

(** [v.k] on any value: only objects have fields here. *)
Definition field (v : JsVal) (k : string) : JsVal :=
  match v with
  | VObj o => get_prop o k
  | _ => VUndefined
  end.

(** [k in o] for an own property. *)
Definition has_prop (o : JsObject) (k : string) : bool :=
  existsb (fun kv => String.eqb (fst kv) k) o.

(** [s === v] for a string [s]. *)
Definition strict_eq_str (s : string) (v : JsVal) : bool :=
  match v with
  | VStr s' => String.eqb s s'
  | _ => false
  end.

(** [const { k, ...rest } = o]: the rest object keeps every other own
    property, in order. *)
Definition rest_without (k : string) (o : JsObject) : JsObject :=
  filter (fun kv => negb (String.eqb (fst kv) k)) o.

(** ** Exceptions *)

Record ZodIssue := mkIssue { path : list string; message : string }.

Inductive Exception :=
| ZodError (errors : list ZodIssue)
| PrismaError (code : string)
| JsonWebTokenError (reason : string).

Inductive Result (A : Type) :=
| Ok (a : A)
| Throw (e : Exception).
Arguments Ok {A} a.
Arguments Throw {A} e.

Definition bind {A B} (r : Result A) (k : A -> Result B) : Result B :=
  match r with
  | Ok a => k a
  | Throw e => Throw e
  end.

Notation "x <- r ;; k" := (bind r (fun x => k))
  (at level 61, r at next level, right associativity).
Notation "' pat <- r ;; k" := (bind r (fun x => match x with pat => k end))
  (at level 61, pat pattern, r at next level, right associativity).

(** ** The store (prisma/schema.prisma) *)

Module User.
Record t := mk
  { id : string; name : option string; email : string; password : string;
    created_at : Z }.
End User.

Module Community.
Record t := mk
  { id : string; name : string; slug : string; owner : string;
    created_at : Z; updated_at : Z }.
End Community.

Module Role.
Record t := mk
  { id : string; name : string; created_at : Z; updated_at : Z }.
End Role.

Module Member.
Record t := mk
  { id : string; community : string; user : string; role : string;
    created_at : Z }.
End Member.

(** The four tables, each in insertion order. *)
Record Db := mkDb
  { db_user : list User.t;
    db_community : list Community.t;
    db_role : list Role.t;
    db_member : list Member.t }.

(** [process.env] and the clock (seconds); [fresh] stands for the identifier
    drawn by [Snowflake.generate()] or by the store's [uuid()] default
    during the request. *)
Record Env := mkEnv { JWT_SECRET : option string }.
Record World := mkWorld { now : Z; fresh : string }.

Module Prisma.

Definition user_findUnique_id (db : Db) (k : string) : option User.t :=
  find (fun u => String.eqb (User.id u) k) (db_user db).

Definition user_findUnique_email (db : Db) (e : string) : option User.t :=
  find (fun u => String.eqb (User.email u) e) (db_user db).

Definition community_findUnique (db : Db) (k : string) : option Community.t :=
  find (fun c => String.eqb (Community.id c) k) (db_community db).

Definition role_findUnique (db : Db) (k : string) : option Role.t :=
  find (fun r => String.eqb (Role.id r) k) (db_role db).

Definition member_findUnique (db : Db) (k : string) : option Member.t :=
  find (fun m => String.eqb (Member.id m) k) (db_member db).

(** [db.member.findFirst({ where: { community, user } })] *)
Definition member_findFirst (db : Db) (community user : string)
  : option Member.t :=
  find (fun m => String.eqb (Member.community m) community
                 && String.eqb (Member.user m) user) (db_member db).

Definition is_some {A} (o : option A) : bool :=
  match o with Some _ => true | None => false end.

(** [db.user.create]: primary key and the unique index on [email]. *)
Definition user_create (db : Db) (u : User.t) : Result (User.t * Db) :=
  if is_some (user_findUnique_id db (User.id u))
     || is_some (user_findUnique_email db (User.email u))
  then Throw (PrismaError "P2002")
  else Ok (u, mkDb (db_user db ++ [u]) (db_community db) (db_role db)
                   (db_member db)).

(** [db.community.create]: primary key, the unique index on [slug], and the
    foreign key [owner]. *)
Definition community_create (db : Db) (c : Community.t)
  : Result (Community.t * Db) :=
  if is_some (community_findUnique db (Community.id c))
     || existsb (fun c' => String.eqb (Community.slug c') (Community.slug c))
                (db_community db)
  then Throw (PrismaError "P2002")
  else if negb (is_some (user_findUnique_id db (Community.owner c)))
  then Throw (PrismaError "P2003")
  else Ok (c, mkDb (db_user db) (db_community db ++ [c]) (db_role db)
                   (db_member db)).

(** [db.role.create]: primary key and the unique index on [name]. *)
Definition role_create (db : Db) (r : Role.t) : Result (Role.t * Db) :=
  if is_some (role_findUnique db (Role.id r))
     || existsb (fun r' => String.eqb (Role.name r') (Role.name r))
                (db_role db)
  then Throw (PrismaError "P2002")
  else Ok (r, mkDb (db_user db) (db_community db) (db_role db ++ [r])
                   (db_member db)).

(** [db.member.create]: primary key and the three foreign keys.  The schema
    has no unique index on (community, user). *)
Definition member_create (db : Db) (m : Member.t) : Result (Member.t * Db) :=
  if is_some (member_findUnique db (Member.id m))
  then Throw (PrismaError "P2002")
  else if negb (is_some (community_findUnique db (Member.community m))
                && is_some (user_findUnique_id db (Member.user m))
                && is_some (role_findUnique db (Member.role m)))
  then Throw (PrismaError "P2003")
  else Ok (m, mkDb (db_user db) (db_community db) (db_role db)
                   (db_member db ++ [m])).

(** [db.member.delete({ where: { id } })]: throws when no row has the id. *)
Definition member_delete (db : Db) (k : string) : Result (Member.t * Db) :=
  match member_findUnique db k with
  | None => Throw (PrismaError "P2025")
  | Some m =>
      Ok (m, mkDb (db_user db) (db_community db) (db_role db)
                  (filter (fun m' => negb (String.eqb (Member.id m') k))
                          (db_member db)))
  end.

(** [findMany({ skip, take })] over rows already filtered: a negative
    [skip] is refused by the query engine, [take] is positive here. *)
Definition findMany_page {A} (rows : list A) (skip take : Z)
  : Result (list A) :=
  if skip <? 0 then Throw (PrismaError "validation")
  else Ok (firstn (Z.to_nat take) (skipn (Z.to_nat skip) rows)).

Definition count {A} (rows : list A) : Z := Z.of_nat (List.length rows).

(** A [findMany] that pages with [skip] and [take] and names no [orderBy]
    reads its rows in ascending order of the primary key [id], a text
    compared unit by unit. *)
Fixpoint insert_by {A} (key : A -> string) (row : A) (sorted : list A)
  : list A :=
  match sorted with
  | [] => [row]
  | r :: rest =>
      if String.leb (key row) (key r) then row :: sorted
      else r :: insert_by key row rest
  end.

Definition order_by {A} (key : A -> string) (rows : list A) : list A :=
  fold_right (insert_by key) [] rows.

End Prisma.

(** ** The token codec (jsonwebtoken) *)

Module Jwt.

(** [jwt.sign(payload, secret, { expiresIn: "1h" })]: refuses a missing or
    empty secret; stamps [iat] and [exp = iat + 3600]. *)
Definition sign (w : World) (payload : JsObject) (secret : option string)
  : Result JsVal :=
  match secret with
  | None => Throw (JsonWebTokenError "secretOrPrivateKey must have a value")
  | Some k =>
      if String.eqb k ""
      then Throw (JsonWebTokenError "secretOrPrivateKey must have a value")
      else Ok (VJwt (payload ++ [("iat", VNum (now w));
                                 ("exp", VNum (now w + 3600))]) k)
  end.

(** The [nbf] and [exp] checks of [jwt.verify]. *)
Definition check_nbf (w : World) (payload : JsObject) : bool :=
  match get_prop payload "nbf" with
  | VUndefined => true
  | VNum nbf => negb (now w <? nbf)
  | _ => false
  end.

Definition check_exp (w : World) (payload : JsObject) : bool :=
  match get_prop payload "exp" with
  | VUndefined => true
  | VNum exp => now w <? exp
  | _ => false
  end.

(** [jwt.verify(token, secret)]: the decoded payload, or an exception for a
    text that is no token, a missing secret, a signature made under another
    key, a token not yet valid or an expired one. *)
Definition verify (w : World) (token : JsVal) (secret : option string)
  : Result JsObject :=
  match token with
  | VJwt payload k =>
      match secret with
      | None => Throw (JsonWebTokenError "secret or public key must be provided")
      | Some s =>
          if String.eqb s ""
          then Throw (JsonWebTokenError "secret or public key must be provided")
          else if negb (String.eqb k s)
          then Throw (JsonWebTokenError "invalid signature")
          else if negb (check_nbf w payload)
          then Throw (JsonWebTokenError "jwt not active")
          else if negb (check_exp w payload)
          then Throw (JsonWebTokenError "jwt expired")
          else Ok payload
      end
  | VStr s =>
      if String.eqb s ""
      then Throw (JsonWebTokenError "jwt must be provided")
      else Throw (JsonWebTokenError "jwt malformed")
  | _ => Throw (JsonWebTokenError "jwt must be a string")
  end.

End Jwt.

(** [getUserIdFromAccessToken], the same in every route file: the [id]
    claim of the verified token, [null] when verification throws. *)
Definition getUserIdFromAccessToken (env : Env) (w : World)
  (accessToken : JsVal) : JsVal :=
  match Jwt.verify w accessToken (JWT_SECRET env) with
  | Ok decodedToken => get_prop decodedToken "id"
  | Throw _ => VNull
  end.

(** [req.headers.authorization?.split(" ")[1] || ""]: a request carries in
    [bearer] the second word of its Authorization header, [undefined] when
    there is none. *)
Definition accessToken_of (bearer : JsVal) : JsVal := js_or bearer (VStr "").

(** ** Responses *)

(** [res.status(status).json(json)] *)
Record Response := mkResponse { status : Z; json : JsVal }.

(** [{ status: false, errors }] *)
Definition failure (errors : list JsVal) : JsVal :=
  VObj [("status", VBool false); ("errors", VArr errors)].

Definition internal_server_error : Response :=
  mkResponse 500
    (failure [VObj [("message", VStr "Internal Server Error");
                    ("code", VStr "INTERNAL_SERVER_ERROR")]]).

Definition not_allowed_access : Response :=
  mkResponse 403
    (failure [VObj [("message",
                     VStr "You are not authorized to perform this action.");
                    ("code", VStr "NOT_ALLOWED_ACCESS")]]).

Definition resource_not_found (param msg : string) : Response :=
  mkResponse 404
    (failure [VObj [("param", VStr param); ("message", VStr msg);
                    ("code", VStr "RESOURCE_NOT_FOUND")]]).

Definition not_signedin : Response :=
  mkResponse 401
    (failure [VObj [("message", VStr "You need to sign in to proceed.");
                    ("code", VStr "NOT_SIGNEDIN")]]).

(** [err.path[0]] *)
Definition path_head (i : ZodIssue) : JsVal :=
  match path i with
  | [] => VUndefined
  | p :: _ => VStr p
  end.

(** The 400 answer of the handlers that report [INVALID_INPUT]. *)
Definition invalid_input (errors : list ZodIssue) : Response :=
  mkResponse 400
    (failure (map (fun err => VObj [("param", path_head err);
                                    ("message", VStr (message err));
                                    ("code", VStr "INVALID_INPUT")]) errors)).

(** The rows as the store hands them to JavaScript. *)
Definition opt_str (o : option string) : JsVal :=
  match o with Some s => VStr s | None => VNull end.

Definition user_obj (u : User.t) : JsObject :=
  [("id", VStr (User.id u)); ("name", opt_str (User.name u));
   ("email", VStr (User.email u)); ("password", VStr (User.password u));
   ("created_at", VDate (User.created_at u))].

Definition community_obj (c : Community.t) : JsObject :=
  [("id", VStr (Community.id c)); ("name", VStr (Community.name c));
   ("slug", VStr (Community.slug c)); ("owner", VStr (Community.owner c));
   ("created_at", VDate (Community.created_at c));
   ("updated_at", VDate (Community.updated_at c))].

Definition role_obj (r : Role.t) : JsObject :=
  [("id", VStr (Role.id r)); ("name", VStr (Role.name r));
   ("created_at", VDate (Role.created_at r));
   ("updated_at", VDate (Role.updated_at r))].

Definition member_obj (m : Member.t) : JsObject :=
  [("id", VStr (Member.id m)); ("community", VStr (Member.community m));
   ("user", VStr (Member.user m)); ("role", VStr (Member.role m));
   ("created_at", VDate (Member.created_at m))].

(** ** Pagination arithmetic *)

(** What [parseInt(q)] or [Number(q)] makes of the [page] query text: an
    integer, or [NaN] for a missing or unreadable one. *)
Inductive JsNumber := NaN | Num (z : Z).

(** [n || 1] *)
Definition or_1 (n : JsNumber) : Z :=
  match n with
  | NaN => 1
  | Num z => if z =? 0 then 1 else z
  end.

(** [Math.ceil(a / b)] for integers [a] and [b > 0]. *)
Definition Math_ceil_div (a b : Z) : Z := - ((- a) / b).

(** [Array.prototype.slice(start, end)]: a negative index counts from the
    end, both are clamped to the array. *)
Definition slice {A} (l : list A) (start end_ : Z) : list A :=
  let len := Z.of_nat (List.length l) in
  let k := if start <? 0 then Z.max (len + start) 0 else Z.min start len in
  let final := if end_ <? 0 then Z.max (len + end_) 0 else Z.min end_ len in
  firstn (Z.to_nat (final - k)) (skipn (Z.to_nat k) l).

(** [{ status: true, content: { meta: { total, pages, page }, data } }] *)
Definition paginated (total pages page : Z) (data : list JsVal) : JsVal :=
  VObj [("status", VBool true);
        ("content",
         VObj [("meta", VObj [("total", VNum total); ("pages", VNum pages);
                              ("page", VNum page)]);
               ("data", VArr data)])].

(** The [page] that a list answer reports in its [meta]. *)
Definition reported_page (r : Response) : JsVal :=
  field (field (field (json r) "content") "meta") "page".

(** The user object of a sign-in or sign-up answer. *)
Definition response_data (r : Response) : JsVal :=
  field (field (json r) "content") "data".

(** The token of a sign-in or sign-up answer. *)
Definition response_token (r : Response) : JsVal :=
  field (field (field (json r) "content") "meta") "access_token".

(** ** routes/Member *)

Module MemberRoute.

(** A request body that passed [addMemberSchema] (three strings), and the
    second word of the Authorization header. *)
Record PostRequest := mkPost
  { community : string; user : string; role : string; bearer : JsVal }.

(** [checkIfUserIsCommunityAdmin(userId, communityId)] *)
Definition checkIfUserIsCommunityAdmin (db : Db) (userId : JsVal)
  (communityId : string) : bool :=
  if negb (truthy userId) then false
  else
    match Prisma.community_findUnique db communityId with
    | Some community => strict_eq_str (Community.owner community) userId
    | None => false
    end.

Definition already_member : Response :=
  mkResponse 400
    (failure [VObj [("message",
                     VStr "User is already added in the community.");
                    ("code", VStr "RESOURCE_EXISTS")]]).

(** The 200 answer for the row the store returned. *)
Definition created (newMember : Member.t) : Response :=
  mkResponse 200
    (VObj [("status", VBool true);
           ("content", VObj [("data", VObj (member_obj newMember))])]).

(** [router.post("/")] *)
Definition post (env : Env) (w : World) (db : Db) (req : PostRequest)
  : Response * Db :=
  let accessToken := accessToken_of (bearer req) in
  let userId := getUserIdFromAccessToken env w accessToken in
  let isAdmin := checkIfUserIsCommunityAdmin db userId (community req) in
  if negb isAdmin then (not_allowed_access, db)
  else
    match Prisma.community_findUnique db (community req) with
    | None => (resource_not_found "community" "Community not found.", db)
    | Some _ =>
    match Prisma.role_findUnique db (role req) with
    | None => (resource_not_found "role" "Role not found.", db)
    | Some _ =>
    match Prisma.user_findUnique_id db (user req) with
    | None => (resource_not_found "user" "User not found.", db)
    | Some _ =>
    match Prisma.member_findFirst db (community req) (user req) with
    | Some _ => (already_member, db)
    | None =>
        match Prisma.member_create db
                (Member.mk (fresh w) (community req) (user req) (role req)
                           (now w)) with
        | Throw _ => (internal_server_error, db)
        | Ok (newMember, db') => (created newMember, db')
        end
    end end end end.

(** The role names of a user's memberships, as
    [include: { member: { include: { community_fk: ..., role_fk: { select:
    { name } } } } }] loads them; a membership whose community or role row
    is missing makes the query throw. *)
Fixpoint member_role_names (db : Db) (ms : list Member.t)
  : Result (list string) :=
  match ms with
  | [] => Ok []
  | m :: rest =>
      match Prisma.community_findUnique db (Member.community m),
            Prisma.role_findUnique db (Member.role m) with
      | Some _, Some r =>
          names <- member_role_names db rest ;; Ok (Role.name r :: names)
      | _, _ => Throw (PrismaError "inconsistent")
      end
  end.

Definition members_of_user (db : Db) (uid : string) : list Member.t :=
  filter (fun m => String.eqb (Member.user m) uid) (db_member db).

(** What the promise returned by
    [checkIfUserIsCommunityAdminOrModerator(accessToken)] settles to:
    [user?.member.some(...)], or a rejection when the query throws (a
    [where.id] that is not a string, a broken relation). *)
Definition adminOrModerator_outcome (env : Env) (w : World) (db : Db)
  (accessToken : JsVal) : option JsVal :=
  match getUserIdFromAccessToken env w accessToken with
  | VStr userId =>
      match Prisma.user_findUnique_id db userId with
      | None => Some VUndefined
      | Some _ =>
          match member_role_names db (members_of_user db userId) with
          | Throw _ => None
          | Ok names =>
              Some (VBool (existsb
                             (fun name =>
                                String.eqb name "Community Admin"
                                || String.eqb name "Community Moderator")
                             names))
          end
      end
  | _ => None
  end.

(** [checkIfUserIsCommunityAdminOrModerator] is an [async function]: a call
    evaluates to a promise. *)
Definition checkIfUserIsCommunityAdminOrModerator (env : Env) (w : World)
  (db : Db) (accessToken : JsVal) : JsVal :=
  VPromise (adminOrModerator_outcome env w db accessToken).

Record DeleteRequest := mkDelete { id : string; del_bearer : JsVal }.

(** [router.delete("/:id")].  The handler tests the value of the call, which
    is not awaited. *)
Definition delete (env : Env) (w : World) (db : Db) (req : DeleteRequest)
  : Response * Db :=
  let memberId := id req in
  match Prisma.member_findUnique db memberId with
  | None =>
      (mkResponse 404
         (failure [VObj [("message", VStr "Member not found.");
                         ("code", VStr "RESOURCE_NOT_FOUND")]]), db)
  | Some _ =>
      let accessToken := accessToken_of (del_bearer req) in
      let isAdminOrModerator :=
        checkIfUserIsCommunityAdminOrModerator env w db accessToken in
      if negb (truthy isAdminOrModerator) then (not_allowed_access, db)
      else
        match Prisma.member_delete db memberId with
        | Throw _ => (internal_server_error, db)
        | Ok (_, db') => (mkResponse 200 (VObj [("status", VBool true)]), db')
        end
  end.

End MemberRoute.

(** A query that loads a relation for each of its rows: the first failure
    is the failure of the whole query. *)
Fixpoint traverse {A B} (f : A -> Result B) (l : list A) : Result (list B) :=
  match l with
  | [] => Ok []
  | a :: rest => b <- f a ;; bs <- traverse f rest ;; Ok (b :: bs)
  end.

(** zod's default message of [z.string().min(n)]. *)
Definition too_small (field : string) (n : string) : ZodIssue :=
  mkIssue [field] ("String must contain at least " ++ n ++ " character(s)").

(** ** routes/Role *)

Module RoleRoute.

(** [roleSchema.safeParse(req.body)] on a body whose [name] is a string;
    the schema gives [min(2)] its own message. *)
Definition roleSchema (name : string) : list ZodIssue :=
  if (Z.of_nat (String.length name) <? 2)
  then [mkIssue ["name"] "Name should be at least 2 characters."]
  else [].

(** [router.post('/role')] *)
Definition post (w : World) (db : Db) (name : string) : Response * Db :=
  match roleSchema name with
  | (_ :: _) as issues => (invalid_input issues, db)
  | [] =>
      let roleId := fresh w in
      match Prisma.role_create db (Role.mk roleId name (now w) (now w)) with
      | Throw _ => (internal_server_error, db)
      | Ok (role, db') =>
          (mkResponse 200
             (VObj [("status", VBool true);
                    ("content", VObj [("data", VObj (role_obj role))])]),
           db')
      end
  end.

(** The three values [router.get('/role')] computes from the roles it
    fetched: the page of items, [total] and [pages]. *)
Definition list_page (roles : list Role.t) (page : Z)
  : list Role.t * Z * Z :=
  let total := Z.of_nat (List.length roles) in
  let itemsPerPage := 10 in
  let pages := Math_ceil_div total itemsPerPage in
  let startIndex := (page - 1) * itemsPerPage in
  let endIndex := page * itemsPerPage in
  let paginatedRoles := slice roles startIndex endIndex in
  (paginatedRoles, total, pages).

(** [router.get('/role')]; [query_page] is [Number(req.query.page)]. *)
Definition get (db : Db) (query_page : JsNumber) : Response :=
  let roles := db_role db in
  let page := or_1 query_page in
  let '(paginatedRoles, total, pages) := list_page roles page in
  mkResponse 200
    (paginated total pages page
       (map (fun r => VObj (role_obj r)) paginatedRoles)).

End RoleRoute.

(** ** Strings: [toLowerCase] and [replace(/\s+/g, "-")] *)

(** A string is a sequence of code units below 256 (the Latin-1 range of
    JavaScript's UTF-16 strings). *)

(** [String.prototype.toLowerCase] on one code unit: A-Z, and the accented
    capitals U+00C0-U+00DE except the multiplication sign U+00D7. *)
Definition lower_unit (c : ascii) : ascii :=
  let n := N_of_ascii c in
  if ((65 <=? n) && (n <=? 90)
      || (192 <=? n) && (n <=? 222) && negb (n =? 215))%N
  then ascii_of_N (n + 32)
  else c.

Fixpoint toLowerCase (s : string) : string :=
  match s with
  | EmptyString => EmptyString
  | String c rest => String (lower_unit c) (toLowerCase rest)
  end.

(** The class [\s] below 256: tab, line feed, vertical tab, form feed,
    carriage return, space and the no-break space. *)
Definition is_space (c : ascii) : bool :=
  let n := N_of_ascii c in
  ((9 <=? n) && (n <=? 13) || (n =? 32) || (n =? 160))%N.

(** What is left after the longest match of [\s*] at the start. *)
Fixpoint drop_spaces (s : string) : string :=
  match s with
  | EmptyString => EmptyString
  | String c rest => if is_space c then drop_spaces rest else s
  end.

(** [s.replace(/\s+/g, "-")]: scanning from the left, at a white-space
    character the greedy [\s+] consumes the whole run and a hyphen is
    written for it; any other character is copied. *)
Equations? replace_spaces (s : string) : string
  by wf (String.length s) lt :=
  replace_spaces EmptyString := EmptyString;
  replace_spaces (String c rest) with is_space c => {
    | true := String "-"%char (replace_spaces (drop_spaces rest));
    | false := String c (replace_spaces rest) }.
Proof.
  clear replace_spaces. simpl.
  induction rest as [|c' rest IH]; simpl; [lia|].
  destruct (is_space c'); simpl; lia.
Qed.

(** [generateSlug(name)] *)
Definition generateSlug (name : string) : string :=
  replace_spaces (toLowerCase name).

(** ** routes/Community *)

Module CommunityRoute.

(** [communitySchema.parse(req.body)] on a body whose [name] is a string. *)
Definition communitySchema (name : string) : Result string :=
  if (Z.of_nat (String.length name) <? 2)
  then Throw (ZodError [too_small "name" "2"])
  else Ok name.

Record PostRequest := mkPost { name : string; bearer : JsVal }.

(** [router.post("/")].  The owner handed to the store must be a string;
    any other truthy [id] claim makes [db.community.create] throw. *)
Definition post (env : Env) (w : World) (db : Db) (req : PostRequest)
  : Response * Db :=
  match communitySchema (name req) with
  | Throw (ZodError errors) => (invalid_input errors, db)
  | Throw _ => (internal_server_error, db)
  | Ok validatedName =>
      let slug := generateSlug validatedName in
      let accessToken := accessToken_of (bearer req) in
      let ownerId := getUserIdFromAccessToken env w accessToken in
      if negb (truthy ownerId) then (not_signedin, db)
      else
        let communityId := fresh w in
        match ownerId with
        | VStr owner =>
            match Prisma.community_create db
                    (Community.mk communityId validatedName slug owner
                                  (now w) (now w)) with
            | Throw _ => (internal_server_error, db)
            | Ok (community, db') =>
                (mkResponse 201
                   (VObj [("status", VBool true);
                          ("content",
                           VObj [("data", VObj (community_obj community))])]),
                 db')
            end
        | _ => (internal_server_error, db)
        end
  end.

(** [select: { id: true, name: true }] on the related user row. *)
Definition user_ref (db : Db) (uid : string) : Result JsVal :=
  match Prisma.user_findUnique_id db uid with
  | Some u => Ok (VObj [("id", VStr (User.id u));
                        ("name", opt_str (User.name u))])
  | None => Throw (PrismaError "inconsistent")
  end.

(** One row of [db.community.findMany] under the handler's [select]. *)
Definition community_item (db : Db) (c : Community.t) : Result JsVal :=
  ownerId <- user_ref db (Community.owner c) ;;
  Ok (VObj [("id", VStr (Community.id c)); ("name", VStr (Community.name c));
            ("slug", VStr (Community.slug c));
            ("created_at", VDate (Community.created_at c));
            ("updated_at", VDate (Community.updated_at c));
            ("ownerId", ownerId)]).

(** The pagination of the store queries: [count()], then
    [findMany({ take: perPage, skip })] with [skip = (page - 1) * perPage],
    and [pages = Math.ceil(total / perPage)]. *)
Definition list_page {A} (rows : list A) (page : Z)
  : Result (list A * Z * Z) :=
  let perPage := 10 in
  let skip := (page - 1) * perPage in
  let totalCount := Prisma.count rows in
  let totalPages := Math_ceil_div totalCount perPage in
  items <- Prisma.findMany_page rows skip perPage ;;
  Ok (items, totalCount, totalPages).

(** [router.get("/")]; [query_page] is [parseInt(req.query.page)].  The
    paged query reads the communities in the order of their ids. *)
Definition get (db : Db) (query_page : JsNumber) : Response :=
  let page := or_1 query_page in
  match
    '(rows, totalCount, totalPages) <-
      list_page (Prisma.order_by Community.id (db_community db)) page ;;
    communities <- traverse (community_item db) rows ;;
    Ok (paginated totalCount totalPages page communities)
  with
  | Ok response => mkResponse 200 response
  | Throw _ => internal_server_error
  end.

(** [router.get("/me/owner")]: the communities whose [owner] is the
    caller, all on one page. *)
Definition get_me_owner (env : Env) (w : World) (db : Db) (bearer : JsVal)
  : Response :=
  let accessToken := accessToken_of bearer in
  let ownerId := getUserIdFromAccessToken env w accessToken in
  if negb (truthy ownerId) then not_signedin
  else
    match ownerId with
    | VStr owner =>
        let communities :=
          filter (fun c => String.eqb (Community.owner c) owner)
                 (db_community db) in
        mkResponse 200
          (paginated (Prisma.count communities) 1 1
             (map (fun c => VObj (community_obj c)) communities))
    | _ => internal_server_error
    end.

(** One row of [router.get("/me/member")] under its [select]. *)
Definition member_community_item (db : Db) (c : Community.t)
  : Result JsVal :=
  ownerId <- user_ref db (Community.owner c) ;;
  Ok (VObj [("id", VStr (Community.id c)); ("name", VStr (Community.name c));
            ("slug", VStr (Community.slug c)); ("ownerId", ownerId);
            ("created_at", VDate (Community.created_at c));
            ("updated_at", VDate (Community.updated_at c))]).

(** [router.get("/me/member")]: the communities the caller owns or has a
    membership in. *)
Definition get_me_member (env : Env) (w : World) (db : Db) (bearer : JsVal)
  : Response :=
  let accessToken := accessToken_of bearer in
  let userId := getUserIdFromAccessToken env w accessToken in
  if negb (truthy userId) then not_signedin
  else
    match userId with
    | VStr uid =>
        let rows :=
          filter (fun c =>
                    String.eqb (Community.owner c) uid
                    || existsb (fun m =>
                                  String.eqb (Member.community m)
                                             (Community.id c)
                                  && String.eqb (Member.user m) uid)
                               (db_member db))
                 (db_community db) in
        match traverse (member_community_item db) rows with
        | Ok communities =>
            mkResponse 200
              (paginated (Prisma.count communities) 1 1 communities)
        | Throw _ => internal_server_error
        end
    | _ => internal_server_error
    end.

(** [Array.from(new Set(ids))]: first occurrences, in order. *)
Fixpoint unique_ids (seen ids : list string) : list string :=
  match ids with
  | [] => []
  | i :: rest =>
      if existsb (String.eqb i) seen then unique_ids seen rest
      else i :: unique_ids (i :: seen) rest
  end.

(** [roles.find((role) => role.id === member.role)] under
    [select: { id, name }]; [undefined] when no fetched role matches. *)
Definition find_role (roles : list Role.t) (rid : string) : JsVal :=
  match find (fun r => String.eqb (Role.id r) rid) roles with
  | Some r => VObj [("id", VStr (Role.id r)); ("name", VStr (Role.name r))]
  | None => VUndefined
  end.

(** [router.get("/:id/members")].  The paged query reads the memberships
    of the community in the order of their ids. *)
Definition get_members (db : Db) (id : string) (query_page : JsNumber)
  : Response :=
  let page := or_1 query_page in
  let in_community :=
    Prisma.order_by Member.id
      (filter (fun m => String.eqb (Member.community m) id) (db_member db)) in
  match
    '(members, totalMembers, totalPages) <- list_page in_community page ;;
    let roleIds := unique_ids [] (map Member.role members) in
    let roles :=
      filter (fun r => existsb (String.eqb (Role.id r)) roleIds)
             (db_role db) in
    responseData <-
      traverse (fun m =>
                  user_fk <- user_ref db (Member.user m) ;;
                  Ok (VObj [("id", VStr (Member.id m));
                            ("community", VStr (Member.community m));
                            ("user", user_fk);
                            ("role", find_role roles (Member.role m));
                            ("created_at", VDate (Member.created_at m))]))
               members ;;
    Ok (paginated totalMembers totalPages page responseData)
  with
  | Ok response => mkResponse 200 response
  | Throw _ => internal_server_error
  end.

End CommunityRoute.

(** ** routes/User *)

Module UserRoute.

(** [generateAccessToken(userId)], the version that reads the secret from
    the environment. *)
Definition generateAccessToken (env : Env) (w : World) (userId : string)
  : Result JsVal :=
  let secretKey := JWT_SECRET env in
  let tokenPayload := [("userId", VStr userId)] in
  Jwt.sign w tokenPayload secretKey.

(** [generateAccessToken(userId)], the earlier version of the file with the
    literal key. *)
Definition generateAccessToken_literal (w : World) (userId : string)
  : Result JsVal :=
  let secretKey := Some "1x234" in
  let tokenPayload := [("userId", VStr userId)] in
  Jwt.sign w tokenPayload secretKey.

(** The token [router.post("/signin")] signs inline. *)
Definition signin_token (env : Env) (w : World) (user : User.t)
  : Result JsVal :=
  Jwt.sign w [("id", VStr (User.id user))] (JWT_SECRET env).

Section Libraries.

(** zod's [email()] format check and bcrypt, as the libraries provide
    them. *)
Variable zod_email : string -> bool.
Variable bcrypt_hash : string -> string.
Variable bcrypt_compareSync : string -> string -> bool.

Record SignUpBody := mkSignUp
  { name : string; email : string; password : string }.

Record SignInBody := mkSignIn { in_email : string; in_password : string }.

Definition check_min (field n_text : string) (n : Z) (s : string)
  : list ZodIssue :=
  if Z.of_nat (String.length s) <? n then [too_small field n_text] else [].

Definition check_email (s : string) : list ZodIssue :=
  if zod_email s then [] else [mkIssue ["email"] "Invalid email"].

(** [signUpSchema.parse]: the issues of all three fields, in order. *)
Definition signUpSchema (b : SignUpBody) : list ZodIssue :=
  (check_min "name" "2" 2 (name b) ++ check_email (email b)
   ++ check_min "password" "6" 6 (password b))%list.

(** [signInSchema.parse] *)
Definition signInSchema (b : SignInBody) : list ZodIssue :=
  (check_email (in_email b) ++ check_min "password" "6" 6 (in_password b))%list.

(** [router.post("/signup")] *)
Definition signup (env : Env) (w : World) (db : Db) (body : SignUpBody)
  : Response * Db :=
  match signUpSchema body with
  | (_ :: _) as errors => (invalid_input errors, db)
  | [] =>
      match Prisma.user_findUnique_email db (email body) with
      | Some _ =>
          (mkResponse 409
             (failure
                [VObj [("param", VStr "email");
                       ("message",
                        VStr "User with this email address already exists.");
                       ("code", VStr "RESOURCE_EXISTS")]]), db)
      | None =>
          let hashedPassword := bcrypt_hash (password body) in
          let userId := fresh w in
          match Prisma.user_create db
                  (User.mk userId (Some (name body)) (email body)
                           hashedPassword (now w)) with
          | Throw _ => (internal_server_error, db)
          | Ok (user, db') =>
              match generateAccessToken env w (User.id user) with
              | Throw _ => (internal_server_error, db')
              | Ok accessToken =>
                  (mkResponse 200
                     (VObj [("status", VBool true);
                            ("content",
                             VObj [("data",
                                    VObj [("id", VStr (User.id user));
                                          ("name", opt_str (User.name user));
                                          ("email", VStr (User.email user));
                                          ("created_at",
                                           VDate (User.created_at user))]);
                                   ("meta",
                                    VObj [("access_token", accessToken)])])]),
                   db')
              end
          end
      end
  end.

Definition invalid_credentials : Response :=
  mkResponse 401
    (failure [VObj [("param", VStr "password");
                    ("message",
                     VStr "The credentials you provided are invalid.");
                    ("code", VStr "INVALID_CREDENTIALS")]]).

(** [router.post("/signin")]; it writes nothing.  The test
    [!user || !bcrypt.compareSync(password, user.password)] answers for a
    missing user without looking at the password. *)
Definition signin (env : Env) (w : World) (db : Db) (body : SignInBody)
  : Response :=
  match signInSchema body with
  | (_ :: _) as errors => invalid_input errors
  | [] =>
      match Prisma.user_findUnique_email db (in_email body) with
      | None => invalid_credentials
      | Some user =>
          if negb (bcrypt_compareSync (in_password body) (User.password user))
          then invalid_credentials
          else
            match signin_token env w user with
            | Throw _ => internal_server_error
            | Ok accessToken =>
                let userData := rest_without "password" (user_obj user) in
                mkResponse 200
                  (VObj [("status", VBool true);
                         ("content",
                          VObj [("data", VObj userData);
                                ("meta",
                                 VObj [("access_token", accessToken)])])])
            end
      end
  end.

(** [router.get("/me")]; here the header word is used as it is. *)
Definition me (env : Env) (w : World) (db : Db) (bearer : JsVal) : Response :=
  let accessToken := bearer in
  if negb (truthy accessToken) then not_signedin
  else
    let userId := getUserIdFromAccessToken env w accessToken in
    if negb (truthy userId)
    then mkResponse 401
           (failure [VObj [("message", VStr "Invalid access token");
                           ("code", VStr "INVALID_TOKEN")]])
    else
      match userId with
      | VStr uid =>
          match Prisma.user_findUnique_id db uid with
          | None =>
              mkResponse 404
                (failure [VObj [("message", VStr "User not found");
                                ("code", VStr "USER_NOT_FOUND")]])
          | Some user =>
              mkResponse 200
                (VObj [("status", VBool true);
                       ("content",
                        VObj [("data",
                               VObj [("id", VStr (User.id user));
                                     ("name", opt_str (User.name user));
                                     ("email", VStr (User.email user));
                                     ("created_at",
                                      VDate (User.created_at user))])])])
          end
      | _ => internal_server_error
      end.

End Libraries.

End UserRoute.

(** ** The application (index.ts) *)

Inductive Request :=
| PostSignup (body : UserRoute.SignUpBody)
| PostSignin (body : UserRoute.SignInBody)
| GetMe (bearer : JsVal)
| PostCommunity (req : CommunityRoute.PostRequest)
| GetCommunity (query_page : JsNumber)
| GetCommunityMembers (id : string) (query_page : JsNumber)
| GetMyOwnedCommunities (bearer : JsVal)
| GetMyCommunities (bearer : JsVal)
| PostRole (name : string)
| GetRole (query_page : JsNumber)
| PostMember (req : MemberRoute.PostRequest)
| DeleteMember (req : MemberRoute.DeleteRequest).

Section App.

Variable zod_email : string -> bool.
Variable bcrypt_hash : string -> string.
Variable bcrypt_compareSync : string -> string -> bool.

(** One request served against the store. *)
Definition handle (env : Env) (w : World) (db : Db) (r : Request)
  : Response * Db :=
  match r with
  | PostSignup body => UserRoute.signup zod_email bcrypt_hash env w db body
  | PostSignin body =>
      (UserRoute.signin zod_email bcrypt_compareSync env w db body, db)
  | GetMe bearer => (UserRoute.me env w db bearer, db)
  | PostCommunity req => CommunityRoute.post env w db req
  | GetCommunity p => (CommunityRoute.get db p, db)
  | GetCommunityMembers id p => (CommunityRoute.get_members db id p, db)
  | GetMyOwnedCommunities bearer =>
      (CommunityRoute.get_me_owner env w db bearer, db)
  | GetMyCommunities bearer =>
      (CommunityRoute.get_me_member env w db bearer, db)
  | PostRole name => RoleRoute.post w db name
  | GetRole p => (RoleRoute.get db p, db)
  | PostMember req => MemberRoute.post env w db req
  | DeleteMember req => MemberRoute.delete env w db req
  end.

End App.

(** ** Properties the statements below are about *)

(** At most one membership per (community, user) pair. *)
Definition member_key (m : Member.t) : string * string :=
  (Member.community m, Member.user m).

Definition unique_membership (db : Db) : Prop :=
  NoDup (map member_key (db_member db)).

(** The pair already has a membership. *)
Definition is_member (db : Db) (community user : string) : Prop :=
  exists m, In m (db_member db)
            /\ Member.community m = community /\ Member.user m = user.

(** The bearer word of a request identifies the user [uid]: the handlers
    read a non-empty [id] claim out of it. *)
Definition identifies (env : Env) (w : World) (bearer : JsVal) (uid : string)
  : Prop :=
  getUserIdFromAccessToken env w (accessToken_of bearer) = VStr uid
  /\ uid <> "".

(** The user [uid] owns the community [cid]. *)
Definition owns (db : Db) (uid cid : string) : Prop :=
  exists c, Prisma.community_findUnique db cid = Some c
            /\ Community.owner c = uid.

(** The bearer word of a POST /member identifies the owner of the
    community the request names: the request passes the ownership gate. *)
Definition passes_gate (env : Env) (w : World) (db : Db)
  (req : MemberRoute.PostRequest) : Prop :=
  exists uid, identifies env w (MemberRoute.bearer req) uid
              /\ owns db uid (MemberRoute.community req).

(** The user holds, somewhere, a membership whose role is named
    "Community Admin" or "Community Moderator". *)
Definition holds_admin_or_moderator (db : Db) (uid : string) : Prop :=
  exists m r, In m (db_member db) /\ Member.user m = uid
              /\ Prisma.role_findUnique db (Member.role m) = Some r
              /\ (Role.name r = "Community Admin"
                  \/ Role.name r = "Community Moderator").

(** Following the specification's words for the slug: the lower-cased name
    is cut into its maximal runs of white space and of other characters, and
    every white-space run is replaced by one hyphen. *)
Fixpoint runs (s : string) : list (bool * string) :=
  match s with
  | EmptyString => []
  | String c rest =>
      match runs rest with
      | (b, g) :: more =>
          if Bool.eqb b (is_space c) then (b, String c g) :: more
          else (is_space c, String c EmptyString) :: (b, g) :: more
      | [] => [(is_space c, String c EmptyString)]
      end
  end.

Definition hyphenate (run : bool * string) : string :=
  if fst run then "-" else snd run.

Definition join (l : list string) : string := fold_right append "" l.

(** What makes a list of runs the maximal runs: no run is empty, a run is of
    one class, and neighbouring runs differ in class. *)
Fixpoint all_class (b : bool) (s : string) : Prop :=
  match s with
  | EmptyString => True
  | String c rest => is_space c = b /\ all_class b rest
  end.

Fixpoint alternating (l : list (bool * string)) : Prop :=
  match l with
  | [] => True
  | (b, g) :: more =>
      g <> EmptyString /\ all_class b g
      /\ match more with
         | [] => True
         | (b', _) :: _ => b' <> b
         end
      /\ alternating more
  end.


Definition slug_spec (name : string) : string :=
  join (map hyphenate (runs (toLowerCase name))).

(** ** A small deployment

    Alice owns the community [c1]; Bob is its only member, with the role
    named "Member"; Carol has an account and no membership. *)

Module Sample.

Definition env : Env := mkEnv (Some "s3cret").
Definition w : World := mkWorld 1000 "x1".

Definition alice : User.t :=
  User.mk "alice" (Some "Alice") "alice@x.org" "$2b$alice-pw" 10.
Definition bob : User.t :=
  User.mk "bob" (Some "Bob") "bob@x.org" "$2b$bob-pass" 20.
Definition carol : User.t :=
  User.mk "carol" None "carol@x.org" "$2b$carol-pw" 30.
Definition c1 : Community.t :=
  Community.mk "c1" "Test Club" "test-club" "alice" 40 40.
Definition r1 : Role.t := Role.mk "r1" "Member" 50 50.
Definition m1 : Member.t := Member.mk "m1" "c1" "bob" "r1" 60.

Definition db : Db := mkDb [alice; bob; carol] [c1] [r1] [m1].

(** The same store after Carol was made a member of [c1] first, under the
    id "m9", and Bob after her. *)
Definition db_two : Db :=
  mkDb [alice; bob; carol] [c1] [r1]
       [Member.mk "m9" "c1" "carol" "r1" 55; m1].

(** The store once [m1] is gone. *)
Definition db_without_m1 : Db := mkDb [alice; bob; carol] [c1] [r1] [].

(** The token sign-in issued to a user at time 900. *)
Definition token (uid : string) : JsVal :=
  VJwt [("id", VStr uid); ("iat", VNum 900); ("exp", VNum 4500)] "s3cret".

(** Twenty-five roles, with the ids "a" to "y". *)
Definition roles25 : list Role.t :=
  map (fun n => Role.mk (String (ascii_of_nat (97 + n)) EmptyString)
                        "Member" 50 50)
      (seq 0 25).

Definition zod_email (s : string) : bool :=
  existsb (Ascii.eqb "@"%char) (list_ascii_of_string s).
Definition bcrypt_hash (password : string) : string := "$2b$" ++ password.
Definition bcrypt_compareSync (password hash : string) : bool :=
  String.eqb (bcrypt_hash password) hash.

End Sample.

(** ** Store consistency (prisma/migrations)

    What the primary keys, the unique indexes and the foreign keys of the
    schema ask of a store. *)

Definition keys_unique (db : Db) : Prop :=
  NoDup (map User.id (db_user db))
  /\ NoDup (map User.email (db_user db))
  /\ NoDup (map Community.id (db_community db))
  /\ NoDup (map Community.slug (db_community db))
  /\ NoDup (map Role.id (db_role db))
  /\ NoDup (map Role.name (db_role db))
  /\ NoDup (map Member.id (db_member db)).

Definition references_resolve (db : Db) : Prop :=
  (forall c, In c (db_community db) ->
             Prisma.user_findUnique_id db (Community.owner c) <> None)
  /\ (forall m, In m (db_member db) ->
                Prisma.community_findUnique db (Member.community m) <> None
                /\ Prisma.user_findUnique_id db (Member.user m) <> None
                /\ Prisma.role_findUnique db (Member.role m) <> None).

(** The rows are in ascending order of a key. *)
Fixpoint ascending {A} (key : A -> string) (rows : list A) : Prop :=
  match rows with
  | a :: (b :: _) as rest =>
      String.leb (key a) (key b) = true /\ ascending key rest
  | _ => True
  end.

(** Every code unit of a string satisfies [P]. *)
Fixpoint each_unit (P : ascii -> Prop) (s : string) : Prop :=
  match s with
  | EmptyString => True
  | String c rest => P c /\ each_unit P rest
  end.

(** The items of page [p] of [rows] as [CommunityRoute.list_page] returns
    them, nothing when the query throws. *)
Definition page_items {A} (rows : list A) (p : Z) : list A :=
  match CommunityRoute.list_page rows p with
  | Ok (items, _, _) => items
  | Throw _ => []
  end.

(** A member row with its user and role looked up one by one, in the shape
    GET /community/:id/members answers. *)
Definition member_item (db : Db) (m : Member.t) : JsVal :=
  VObj [("id", VStr (Member.id m));
        ("community", VStr (Member.community m));
        ("user",
         match Prisma.user_findUnique_id db (Member.user m) with
         | Some u => VObj [("id", VStr (User.id u));
                           ("name", opt_str (User.name u))]
         | None => VUndefined
         end);
        ("role",
         match Prisma.role_findUnique db (Member.role m) with
         | Some r => VObj [("id", VStr (Role.id r));
                           ("name", VStr (Role.name r))]
         | None => VUndefined
         end);
        ("created_at", VDate (Member.created_at m))].

Definition consistent (db : Db) : Prop :=
  keys_unique db /\ references_resolve db /\ unique_membership db.

Definition empty_db : Db := mkDb [] [] [] [].

(** The store after a sequence of requests, each served at its own time
    and with its own fresh identifier. *)
Fixpoint run (zod_email : string -> bool) (bcrypt_hash : string -> string)
  (bcrypt_compareSync : string -> string -> bool) (env : Env)
  (trace : list (World * Request)) (db : Db) : Db :=
  match trace with
  | [] => db
  | (w, r) :: rest =>
      run zod_email bcrypt_hash bcrypt_compareSync env rest
        (snd (handle zod_email bcrypt_hash bcrypt_compareSync env w db r))
  end.

(** The [total] that a list answer reports in its [meta]. *)
Definition reported_total (r : Response) : JsVal :=
  field (field (field (json r) "content") "meta") "total".

(** The secret is missing or empty. *)
Definition secret_unset (env : Env) : Prop :=
  JWT_SECRET env = None \/ JWT_SECRET env = Some "".

(** * Theorems *)

(** ** The slug *)

Section Slug.

(** The runs of a string are what the specification means by them: glued
    together they give the string back, none is empty, each is of one class,
    and neighbours differ in class, so every run is maximal. *)
Lemma runs_join (s : string) : join (map snd (runs s)) = s.
Proof.
  induction s as [|c rest IH]; [reflexivity|].
  simpl. destruct (runs rest) as [|[b g] more].
  - simpl in *. now rewrite <- IH.
  - destruct (Bool.eqb b (is_space c)); simpl in *; now rewrite <- IH.
Qed.

Lemma runs_alternating (s : string) : alternating (runs s).
Proof.
  induction s as [|c rest IH]; [exact I|].
  simpl. destruct (runs rest) as [|[b g] more].
  - simpl. repeat split; congruence.
  - destruct (Bool.eqb b (is_space c)) eqn:E.
    + apply Bool.eqb_prop in E. subst b.
      simpl in *. destruct IH as (Hne & Hcl & Hnext & Hrest).
      repeat split; try congruence; assumption.
    + apply Bool.eqb_false_iff in E.
      simpl in *. repeat split; try congruence; tauto.
Qed.

Lemma runs_space_head (c : ascii) (rest : string) :
  is_space c = true ->
  join (map hyphenate (runs (String c rest)))
  = String "-"%char (join (map hyphenate (runs (drop_spaces rest)))).
Proof.
  revert c. induction rest as [|c' rest' IH]; intros c Hc.
  - simpl. rewrite Hc. reflexivity.
  - specialize (IH c').
    change (runs (String c (String c' rest')))
      with (match runs (String c' rest') with
            | (b, g) :: more =>
                if Bool.eqb b (is_space c) then (b, String c g) :: more
                else (is_space c, String c EmptyString) :: (b, g) :: more
            | [] => [(is_space c, String c EmptyString)]
            end).
    rewrite Hc.
    change (drop_spaces (String c' rest'))
      with (if is_space c' then drop_spaces rest' else String c' rest').
    destruct (is_space c') eqn:Hc'.
    + rewrite <- (IH eq_refl).
      simpl. rewrite Hc'.
      destruct (runs rest') as [|[b g] more]; [reflexivity|].
      destruct b; reflexivity.
    + simpl. rewrite Hc'.
      destruct (runs rest') as [|[b g] more]; [reflexivity|].
      destruct b; reflexivity.
Qed.

Lemma runs_other_head (c : ascii) (rest : string) :
  is_space c = false ->
  join (map hyphenate (runs (String c rest)))
  = String c (join (map hyphenate (runs rest))).
Proof.
  intros Hc. simpl. rewrite Hc.
  destruct (runs rest) as [|[b g] more]; [reflexivity|].
  destruct b; reflexivity.
Qed.

Lemma replace_spaces_runs (s : string) :
  replace_spaces s = join (map hyphenate (runs s)).
Proof.
  funelim (replace_spaces s).
  - reflexivity.
  - rewrite runs_space_head by assumption. now f_equal.
  - rewrite runs_other_head by assumption. now f_equal.
Qed.

End Slug.

(** C6. Every community created through POST /community with name [n] is
    stored with the slug the specification describes: the lower-cased name
    in which each maximal run of white space is one hyphen.  The name
    "Open  Source Hub" gives "open-source-hub". *)
Theorem created_community_slug (env : Env) (w : World) (db db' : Db)
  (req : CommunityRoute.PostRequest) (resp : Response) :
  CommunityRoute.post env w db req = (resp, db') ->
  status resp = 201 ->
  (exists c, db_community db' = (db_community db ++ [c])%list
             /\ json resp
                = VObj [("status", VBool true);
                        ("content", VObj [("data", VObj (community_obj c))])]
             /\ Community.name c = CommunityRoute.name req
             /\ Community.slug c = slug_spec (CommunityRoute.name req))
  /\ slug_spec "Open  Source Hub" = "open-source-hub"
  /\ generateSlug "Open  Source Hub" = "open-source-hub".
Proof.
  intros Hpost Hstatus. split; [|split; reflexivity].
  unfold CommunityRoute.post in Hpost.
  destruct (CommunityRoute.communitySchema (CommunityRoute.name req))
    as [validated|[]] eqn:Hschema;
    try (injection Hpost as <- <-; discriminate Hstatus).
  assert (validated = CommunityRoute.name req) as ->.
  { unfold CommunityRoute.communitySchema in Hschema.
    destruct (_ <? 2); congruence. }
  destruct (negb (truthy _));
    [injection Hpost as <- <-; discriminate Hstatus|].
  destruct (getUserIdFromAccessToken _ _ _);
    try (injection Hpost as <- <-; discriminate Hstatus).
  unfold Prisma.community_create in Hpost.
  destruct (_ || _);
    [injection Hpost as <- <-; discriminate Hstatus|].
  destruct (negb _);
    [injection Hpost as <- <-; discriminate Hstatus|].
  injection Hpost as <- <-. eexists. repeat split.
  simpl. unfold generateSlug, slug_spec. apply replace_spaces_runs.
Qed.

Lemma created_community_slug_witness :
  (exists c, db_community
               (snd (CommunityRoute.post Sample.env Sample.w Sample.db
                       (CommunityRoute.mkPost "Open  Source Hub"
                                              (Sample.token "alice"))))
             = (db_community Sample.db ++ [c])%list
             /\ Community.slug c = "open-source-hub").
Proof.
  destruct (created_community_slug Sample.env Sample.w Sample.db
              (snd (CommunityRoute.post Sample.env Sample.w Sample.db
                      (CommunityRoute.mkPost "Open  Source Hub"
                                             (Sample.token "alice"))))
              (CommunityRoute.mkPost "Open  Source Hub" (Sample.token "alice"))
              (fst (CommunityRoute.post Sample.env Sample.w Sample.db
                      (CommunityRoute.mkPost "Open  Source Hub"
                                             (Sample.token "alice"))))
              eq_refl eq_refl) as [[c (Hdb & _ & _ & Hslug)] _].
  exists c. split; [exact Hdb|]. rewrite Hslug. reflexivity.
Defined.

(** ** Pagination *)

Lemma firstn_min_length {A} (n : nat) (l : list A) :
  firstn (Nat.min n (List.length l)) l = firstn n l.
Proof.
  destruct (Nat.le_gt_cases n (List.length l)) as [Hle|Hgt].
  - now rewrite Nat.min_l.
  - rewrite Nat.min_r by lia.
    rewrite firstn_all. symmetry. apply firstn_all2. lia.
Qed.

(** With indices that are not negative, [slice] is skip-and-take. *)
Lemma slice_skip_take {A} (l : list A) (start n : Z) :
  0 <= start -> 0 <= n ->
  slice l start (start + n)
  = firstn (Z.to_nat n) (skipn (Z.to_nat start) l).
Proof.
  intros Hstart Hn. unfold slice. cbv zeta.
  destruct (Z.ltb_spec start 0); [lia|].
  destruct (Z.ltb_spec (start + n) 0); [lia|].
  set (len := Z.of_nat (List.length l)).
  destruct (Z.le_gt_cases len start) as [Hout|Hin].
  - rewrite (Z.min_r start len) by lia.
    rewrite !skipn_all2 by (unfold len in *; lia).
    now rewrite !firstn_nil.
  - rewrite (Z.min_l start len) by lia.
    rewrite <- (firstn_min_length (Z.to_nat n)).
    f_equal. rewrite length_skipn. unfold len in *. lia.
Qed.

Lemma ceil_div_10 (total : Z) :
  0 <= total -> Math_ceil_div total 10 = (total + 9) / 10.
Proof.
  intros H. unfold Math_ceil_div.
  pose proof (Z.div_mod (- total) 10 ltac:(lia)).
  pose proof (Z.mod_pos_bound (- total) 10 ltac:(lia)).
  pose proof (Z.div_mod (total + 9) 10 ltac:(lia)).
  pose proof (Z.mod_pos_bound (total + 9) 10 ltac:(lia)).
  lia.
Qed.

(** C9. For every collection of roles and every page number from 1 on, the
    role list (all roles fetched, then sliced from [(page-1)*10] to
    [page*10]) gives the items, the total and the number of pages that the
    community list's pagination (count, skip [(page-1)*10], take 10, pages
    the ceiling of total over 10) gives on the same rows in the same
    order. *)
Theorem role_list_refines_store_pagination (roles : list Role.t) (page : Z) :
  1 <= page ->
  CommunityRoute.list_page roles page = Ok (RoleRoute.list_page roles page)
  /\ (let pages := snd (RoleRoute.list_page roles page) in
      let total := Z.of_nat (List.length roles) in
      10 * (pages - 1) < total <= 10 * pages).
Proof.
  intros Hpage. split.
  - unfold CommunityRoute.list_page, RoleRoute.list_page,
      Prisma.findMany_page, Prisma.count.
    destruct (Z.ltb_spec ((page - 1) * 10) 0); [lia|].
    cbn [bind]. do 3 f_equal.
    replace (page * 10) with ((page - 1) * 10 + 10) by lia.
    symmetry. apply slice_skip_take; lia.
  - cbn [RoleRoute.list_page snd].
    rewrite ceil_div_10 by lia.
    pose proof (Z.div_mod (Z.of_nat (List.length roles) + 9) 10 ltac:(lia)).
    pose proof (Z.mod_pos_bound (Z.of_nat (List.length roles) + 9) 10
                  ltac:(lia)).
    lia.
Qed.

Lemma role_list_refines_store_pagination_witness :
  1 <= 3
  /\ CommunityRoute.list_page (repeat Sample.r1 25) 3
     = Ok (RoleRoute.list_page (repeat Sample.r1 25) 3)
  /\ RoleRoute.list_page (repeat Sample.r1 25) 3
     = (repeat Sample.r1 5, 25, 3).
Proof.
  split; [lia|]. split.
  - apply (role_list_refines_store_pagination (repeat Sample.r1 25) 3). lia.
  - reflexivity.
Defined.

(** Page 0 falls back to page 1 in each of the three list handlers. *)
Lemma page_zero_is_page_one : or_1 (Num 0) = or_1 (Num 1).
Proof. reflexivity. Qed.

(** A negative page is kept as it is. *)
Lemma negative_page_kept (n : Z) : n < 0 -> or_1 (Num n) = n.
Proof.
  intros Hn. unfold or_1. destruct (Z.eqb_spec n 0); [lia|reflexivity].
Qed.

Lemma role_get_reports_page (db : Db) (q : JsNumber) :
  reported_page (RoleRoute.get db q) = VNum (or_1 q).
Proof. reflexivity. Qed.

(** C7, as the handlers have it.  On each paginated list endpoint a request
    for page 0 gets the answer of a request for page 1.  A negative page is
    not replaced by 1: GET /role reports the negative number as the page and
    slices with negative indices, which count from the end of the list, so
    its answer is never the answer for page 1. *)
Theorem page_zero_behaves_as_page_one (db : Db) (id : string) :
  CommunityRoute.get db (Num 0) = CommunityRoute.get db (Num 1)
  /\ CommunityRoute.get_members db id (Num 0)
     = CommunityRoute.get_members db id (Num 1)
  /\ RoleRoute.get db (Num 0) = RoleRoute.get db (Num 1)
  /\ (forall n, n < 0 ->
        reported_page (RoleRoute.get db (Num n)) = VNum n
        /\ RoleRoute.get db (Num n) <> RoleRoute.get db (Num 1)).
Proof.
  repeat split; try reflexivity.
  - rewrite role_get_reports_page. now rewrite negative_page_kept.
  - intros Heq. apply (f_equal reported_page) in Heq.
    rewrite !role_get_reports_page, negative_page_kept in Heq by assumption.
    cbn in Heq. injection Heq. lia.
Qed.

Lemma page_zero_behaves_as_page_one_witness :
  -1 < 0
  /\ reported_page (RoleRoute.get Sample.db (Num (-1))) = VNum (-1)
  /\ RoleRoute.get Sample.db (Num (-1)) <> RoleRoute.get Sample.db (Num 1).
Proof.
  split; [lia|].
  destruct (page_zero_behaves_as_page_one Sample.db "c1")
    as (_ & _ & _ & Hneg).
  destruct (Hneg (-1) ltac:(lia)) as (Hpage & Hneq).
  split; assumption.
Defined.

(** C7 as written fails for a negative page: with one role in the store,
    GET /role?page=-1 answers page -1 with no item, GET /role?page=1 answers
    page 1 with the role. *)
Lemma negative_page_is_not_page_one :
  RoleRoute.get Sample.db (Num (-1))
  = mkResponse 200 (paginated 1 1 (-1) [])
  /\ RoleRoute.get Sample.db (Num 1)
     = mkResponse 200 (paginated 1 1 1 [VObj (role_obj Sample.r1)])
  /\ RoleRoute.get Sample.db (Num (-1)) <> RoleRoute.get Sample.db (Num 1).
Proof.
  split; [reflexivity|]. split; [reflexivity|]. discriminate.
Qed.

(** With 25 roles, page -1 of GET /role is the slice from -20 to -10: the
    sixth to the fifteenth role, where page 1 has the first ten. *)
Example negative_page_counts_from_the_end :
  map Role.id (fst (fst (RoleRoute.list_page Sample.roles25 (-1))))
  = ["f"; "g"; "h"; "i"; "j"; "k"; "l"; "m"; "n"; "o"]
  /\ map Role.id (fst (fst (RoleRoute.list_page Sample.roles25 1)))
     = ["a"; "b"; "c"; "d"; "e"; "f"; "g"; "h"; "i"; "j"]
  /\ snd (RoleRoute.list_page Sample.roles25 (-1)) = 3.
Proof. repeat split. Qed.

(** ** Sign-in *)

Section SignIn.

Variable zod_email : string -> bool.
Variable bcrypt_compareSync : string -> string -> bool.

Local Abbreviation signin :=
  (UserRoute.signin zod_email bcrypt_compareSync).

(** C8. Two sign-in requests that reach the credential check, one with an
    email that is not registered and one with a registered email and a
    password that does not match the stored hash, get the same answer:
    status 401 with the one error of code INVALID_CREDENTIALS and the same
    message, whenever each is served. *)
Theorem signin_rejections_identical (env : Env) (w1 w2 : World) (db : Db)
  (unknown wrong : UserRoute.SignInBody) (user : User.t) :
  UserRoute.signInSchema zod_email unknown = [] ->
  UserRoute.signInSchema zod_email wrong = [] ->
  Prisma.user_findUnique_email db (UserRoute.in_email unknown) = None ->
  Prisma.user_findUnique_email db (UserRoute.in_email wrong) = Some user ->
  bcrypt_compareSync (UserRoute.in_password wrong) (User.password user)
  = false ->
  signin env w1 db unknown = signin env w2 db wrong
  /\ signin env w1 db unknown
     = mkResponse 401
         (failure [VObj [("param", VStr "password");
                         ("message",
                          VStr "The credentials you provided are invalid.");
                         ("code", VStr "INVALID_CREDENTIALS")]]).
Proof.
  intros Hv1 Hv2 Hunknown Hknown Hmismatch.
  unfold signin, UserRoute.signin.
  rewrite Hv1, Hv2, Hunknown, Hknown, Hmismatch.
  split; reflexivity.
Qed.

(** C10. The user object in the body of every successful sign-in answer
    has no [password] field: it is the stored row without it. *)
Theorem signin_answer_has_no_password (env : Env) (w : World) (db : Db)
  (body : UserRoute.SignInBody) :
  status (signin env w db body) = 200 ->
  exists user data,
    Prisma.user_findUnique_email db (UserRoute.in_email body) = Some user
    /\ response_data (signin env w db body) = VObj data
    /\ data = [("id", VStr (User.id user)); ("name", opt_str (User.name user));
               ("email", VStr (User.email user));
               ("created_at", VDate (User.created_at user))]
    /\ has_prop data "password" = false
    /\ field (VObj data) "password" = VUndefined.
Proof.
  unfold signin, UserRoute.signin. intros Hstatus.
  destruct (UserRoute.signInSchema zod_email body); [|discriminate Hstatus].
  destruct (Prisma.user_findUnique_email db (UserRoute.in_email body))
    as [user|]; [|discriminate Hstatus].
  destruct (negb _); [discriminate Hstatus|].
  destruct (UserRoute.signin_token env w user); [|discriminate Hstatus].
  exists user. eexists. repeat split.
Qed.

End SignIn.

Lemma signin_rejections_identical_witness :
  UserRoute.signin Sample.zod_email Sample.bcrypt_compareSync Sample.env
    Sample.w Sample.db (UserRoute.mkSignIn "nobody@x.org" "alice-pw")
  = UserRoute.signin Sample.zod_email Sample.bcrypt_compareSync Sample.env
      Sample.w Sample.db (UserRoute.mkSignIn "alice@x.org" "not-alice-pw").
Proof.
  apply (signin_rejections_identical Sample.zod_email
           Sample.bcrypt_compareSync Sample.env Sample.w Sample.w Sample.db
           (UserRoute.mkSignIn "nobody@x.org" "alice-pw")
           (UserRoute.mkSignIn "alice@x.org" "not-alice-pw")
           Sample.alice);
    reflexivity.
Defined.

Lemma signin_answer_has_no_password_witness :
  status (UserRoute.signin Sample.zod_email Sample.bcrypt_compareSync
            Sample.env Sample.w Sample.db
            (UserRoute.mkSignIn "alice@x.org" "alice-pw")) = 200
  /\ exists user data,
       Prisma.user_findUnique_email Sample.db "alice@x.org" = Some user
       /\ response_data
            (UserRoute.signin Sample.zod_email Sample.bcrypt_compareSync
               Sample.env Sample.w Sample.db
               (UserRoute.mkSignIn "alice@x.org" "alice-pw")) = VObj data
       /\ has_prop data "password" = false.
Proof.
  split; [reflexivity|].
  destruct (signin_answer_has_no_password Sample.zod_email
              Sample.bcrypt_compareSync Sample.env Sample.w Sample.db
              (UserRoute.mkSignIn "alice@x.org" "alice-pw") eq_refl)
    as (user & data & Hfind & Hdata & _ & Hno & _).
  exists user, data. repeat split; assumption.
Defined.

(** ** The token codec *)

Lemma get_prop_app (o o' : JsObject) (k : string) :
  has_prop o k = false -> get_prop (o ++ o')%list k = get_prop o' k.
Proof.
  unfold has_prop. induction o as [|[k' v] rest IH]; [reflexivity|].
  cbn. destruct (String.eqb k' k); [discriminate|exact IH].
Qed.

Section TokenCodec.

Variable env : Env.

(** What [jwt.sign] returns verifies under the same secret until it
    expires, and gives the payload back with the two time stamps. *)
Lemma verify_sign (w w' : World) (payload : JsObject) (tok : JsVal) :
  Jwt.sign w payload (JWT_SECRET env) = Ok tok ->
  has_prop payload "nbf" = false ->
  has_prop payload "exp" = false ->
  now w' < now w + 3600 ->
  Jwt.verify w' tok (JWT_SECRET env)
  = Ok (payload ++ [("iat", VNum (now w)); ("exp", VNum (now w + 3600))])%list.
Proof.
  unfold Jwt.sign. intros Hsign Hnbf Hexp Hnow.
  destruct (JWT_SECRET env) as [k|]; [|discriminate].
  destruct (String.eqb k "") eqn:Hk; [discriminate|].
  injection Hsign as <-. unfold Jwt.verify.
  rewrite Hk, String.eqb_refl. cbn [negb].
  unfold Jwt.check_nbf, Jwt.check_exp.
  rewrite !get_prop_app by assumption. cbn.
  destruct (Z.ltb_spec (now w') (now w + 3600)); [reflexivity|lia].
Qed.

(** The sign-in path: the token verifies to the user it was issued for,
    at once and until the hour is over. *)
Lemma signin_token_round_trip (w w' : World) (user : User.t) (tok : JsVal) :
  UserRoute.signin_token env w user = Ok tok ->
  now w' < now w + 3600 ->
  getUserIdFromAccessToken env w' tok = VStr (User.id user).
Proof.
  intros Hsign Hnow. unfold getUserIdFromAccessToken.
  rewrite (verify_sign w w' _ tok Hsign eq_refl eq_refl Hnow).
  reflexivity.
Qed.

(** An hour after it was issued the token is refused. *)
Lemma signin_token_expires (w w' : World) (user : User.t) (tok : JsVal) :
  UserRoute.signin_token env w user = Ok tok ->
  now w + 3600 <= now w' ->
  getUserIdFromAccessToken env w' tok = VNull.
Proof.
  unfold UserRoute.signin_token, Jwt.sign. intros Hsign Hnow.
  destruct (JWT_SECRET env) as [k|] eqn:Hsecret; [|discriminate].
  destruct (String.eqb k "") eqn:Hk; [discriminate|].
  injection Hsign as <-.
  unfold getUserIdFromAccessToken, Jwt.verify.
  rewrite Hsecret, Hk, String.eqb_refl. cbn.
  destruct (Z.ltb_spec (now w') (now w + 3600)); [lia|reflexivity].
Qed.

(** C2 on the sign-up path.  The token that [generateAccessToken] issues
    carries the user id under the claim [userId]; verification reads the
    claim [id].  Verifying the token right after it was issued therefore
    gives [undefined], never the user id. *)
Theorem signup_token_does_not_round_trip (w : World) (userId : string)
  (tok : JsVal) :
  UserRoute.generateAccessToken env w userId = Ok tok ->
  getUserIdFromAccessToken env w tok = VUndefined
  /\ getUserIdFromAccessToken env w tok <> VStr userId.
Proof.
  intros Hsign. unfold getUserIdFromAccessToken.
  rewrite (verify_sign w w _ tok Hsign eq_refl eq_refl ltac:(lia)).
  split; [reflexivity|discriminate].
Qed.

(** The earlier sign-up token, signed with the literal key: refused when
    the configured secret is another one, and without an [id] claim when it
    is the same. *)
Lemma literal_token_does_not_round_trip (w : World) (userId : string)
  (tok : JsVal) :
  UserRoute.generateAccessToken_literal w userId = Ok tok ->
  getUserIdFromAccessToken env w tok <> VStr userId.
Proof.
  unfold UserRoute.generateAccessToken_literal, Jwt.sign. cbn.
  intros [= <-]. unfold getUserIdFromAccessToken, Jwt.verify.
  destruct (JWT_SECRET env) as [s|]; [|discriminate].
  destruct (String.eqb s ""); [discriminate|].
  destruct (String.eqb "1x234" s); cbn; [|discriminate].
  destruct (Z.ltb_spec (now w) (now w + 3600)); cbn; discriminate.
Qed.

End TokenCodec.

Lemma signup_token_does_not_round_trip_witness :
  UserRoute.generateAccessToken Sample.env Sample.w "u1"
  = Ok (VJwt [("userId", VStr "u1"); ("iat", VNum 1000); ("exp", VNum 4600)]
          "s3cret")
  /\ getUserIdFromAccessToken Sample.env Sample.w
       (VJwt [("userId", VStr "u1"); ("iat", VNum 1000); ("exp", VNum 4600)]
          "s3cret") = VUndefined.
Proof.
  split; [reflexivity|].
  apply (signup_token_does_not_round_trip Sample.env Sample.w "u1").
  reflexivity.
Defined.

(** Alice signs in and GET /auth/me accepts the token she got. *)
Example signin_then_me :
  let resp :=
    UserRoute.signin Sample.zod_email Sample.bcrypt_compareSync Sample.env
      Sample.w Sample.db (UserRoute.mkSignIn "alice@x.org" "alice-pw") in
  status resp = 200
  /\ getUserIdFromAccessToken Sample.env Sample.w (response_token resp)
     = VStr "alice"
  /\ UserRoute.me Sample.env Sample.w Sample.db (response_token resp)
     = mkResponse 200
         (VObj [("status", VBool true);
                ("content",
                 VObj [("data",
                        VObj [("id", VStr "alice"); ("name", VStr "Alice");
                              ("email", VStr "alice@x.org");
                              ("created_at", VDate 10)])])]).
Proof. cbn. repeat split. Qed.

(** The sign-up path as a whole: Dave signs up, gets a token with his
    account, and GET /auth/me refuses that token at once. *)
Example signup_then_me :
  let '(resp, db') :=
    UserRoute.signup Sample.zod_email Sample.bcrypt_hash Sample.env Sample.w
      Sample.db (UserRoute.mkSignUp "Dave" "dave@x.org" "dave-pw") in
  status resp = 200
  /\ response_data resp
     = VObj [("id", VStr "x1"); ("name", VStr "Dave");
             ("email", VStr "dave@x.org"); ("created_at", VDate 1000)]
  /\ Prisma.user_findUnique_id db' "x1"
     = Some (User.mk "x1" (Some "Dave") "dave@x.org" "$2b$dave-pw" 1000)
  /\ getUserIdFromAccessToken Sample.env Sample.w (response_token resp)
     = VUndefined
  /\ UserRoute.me Sample.env Sample.w db' (response_token resp)
     = mkResponse 401
         (failure [VObj [("message", VStr "Invalid access token");
                         ("code", VStr "INVALID_TOKEN")]]).
Proof. cbn. repeat split. Qed.

(** ** DELETE /member/:id *)

(** Whatever the bearer word, the handler deletes a membership that
    exists: the promise it tests is truthy before it settles. *)
Lemma delete_never_refuses (env : Env) (w : World) (db : Db)
  (req : MemberRoute.DeleteRequest) (m : Member.t) :
  Prisma.member_findUnique db (MemberRoute.id req) = Some m ->
  MemberRoute.delete env w db req
  = (mkResponse 200 (VObj [("status", VBool true)]),
     mkDb (db_user db) (db_community db) (db_role db)
          (filter (fun m' => negb (String.eqb (Member.id m')
                                              (MemberRoute.id req)))
                  (db_member db))).
Proof.
  intros Hfound. unfold MemberRoute.delete, Prisma.member_delete.
  rewrite Hfound. reflexivity.
Qed.

Lemma member_role_names_spec (db : Db) (ms : list Member.t)
  (names : list string) :
  MemberRoute.member_role_names db ms = Ok names ->
  forall name,
    In name names
    <-> exists m r, In m ms
                    /\ Prisma.role_findUnique db (Member.role m) = Some r
                    /\ Role.name r = name.
Proof.
  revert names. induction ms as [|m rest IH]; intros names Hnames name.
  - injection Hnames as <-. split; [intros []|intros (? & ? & [] & _)].
  - cbn in Hnames.
    destruct (Prisma.community_findUnique db (Member.community m));
      [|discriminate].
    destruct (Prisma.role_findUnique db (Member.role m)) as [r|] eqn:Hr;
      [|discriminate].
    destruct (MemberRoute.member_role_names db rest) as [names'|];
      [|discriminate].
    injection Hnames as <-. specialize (IH names' eq_refl name).
    split.
    + intros [<-|Hin].
      * exists m, r. repeat split; [now left|assumption].
      * apply IH in Hin as (m' & r' & Hm' & Hr' & Hname).
        exists m', r'. repeat split; [now right|assumption..].
    + intros (m' & r' & [<-|Hm'] & Hr' & Hname).
      * left. congruence.
      * right. apply IH. now exists m', r'.
Qed.

(** The check itself is right: when the promise fulfils with a boolean,
    that boolean says whether the user holds one of the two roles. *)
Lemma adminOrModerator_outcome_spec (env : Env) (w : World) (db : Db)
  (bearer : JsVal) (uid : string) (b : bool) :
  identifies env w bearer uid ->
  MemberRoute.adminOrModerator_outcome env w db (accessToken_of bearer)
  = Some (VBool b) ->
  b = true <-> holds_admin_or_moderator db uid.
Proof.
  intros [Hid _]. unfold MemberRoute.adminOrModerator_outcome.
  rewrite Hid.
  destruct (Prisma.user_findUnique_id db uid); [|discriminate].
  destruct (MemberRoute.member_role_names db _) as [names|] eqn:Hnames;
    [|discriminate].
  intros [= <-]. pose proof (member_role_names_spec _ _ _ Hnames) as Hspec.
  rewrite existsb_exists. unfold holds_admin_or_moderator. split.
  - intros (name & Hin & Hname).
    apply Hspec in Hin as (m & r & Hm & Hr & <-).
    apply filter_In in Hm as [Hm Huser]. apply String.eqb_eq in Huser.
    exists m, r. repeat split; try assumption.
    apply orb_true_iff in Hname as [H|H]; apply String.eqb_eq in H; tauto.
  - intros (m & r & Hm & Huser & Hr & Hname).
    exists (Role.name r). split.
    + apply Hspec. exists m, r. repeat split; [|assumption].
      apply filter_In. split; [assumption|]. now apply String.eqb_eq.
    + apply orb_true_iff.
      destruct Hname as [->| ->]; [left|right]; reflexivity.
Qed.

(** C1 fails on the code.  Carol is signed in and holds no membership at
    all; the check, once settled, says [false].  Her DELETE /member/m1 is
    answered 200 and Bob's membership is gone, where the gate should have
    answered 403 and kept it. *)
Theorem delete_by_non_moderator_succeeds :
  Prisma.member_findUnique Sample.db "m1" = Some Sample.m1
  /\ identifies Sample.env Sample.w (Sample.token "carol") "carol"
  /\ ~ holds_admin_or_moderator Sample.db "carol"
  /\ MemberRoute.adminOrModerator_outcome Sample.env Sample.w Sample.db
       (accessToken_of (Sample.token "carol")) = Some (VBool false)
  /\ MemberRoute.delete Sample.env Sample.w Sample.db
       (MemberRoute.mkDelete "m1" (Sample.token "carol"))
     = (mkResponse 200 (VObj [("status", VBool true)]), Sample.db_without_m1)
  /\ Prisma.member_findUnique Sample.db_without_m1 "m1" = None.
Proof.
  assert (Hid : identifies Sample.env Sample.w (Sample.token "carol") "carol")
    by (split; [reflexivity|discriminate]).
  assert (Hout : MemberRoute.adminOrModerator_outcome Sample.env Sample.w
                   Sample.db (accessToken_of (Sample.token "carol"))
                 = Some (VBool false)) by reflexivity.
  repeat split; try reflexivity; try discriminate.
  intros Hholds.
  apply (adminOrModerator_outcome_spec _ _ _ _ _ _ Hid Hout) in Hholds.
  discriminate Hholds.
Qed.

(** ** POST /member *)

Section AddMember.

Variables (env : Env) (w : World) (db : Db).

Lemma admin_check_owner (bearer : JsVal) (uid cid : string) :
  identifies env w bearer uid ->
  MemberRoute.checkIfUserIsCommunityAdmin db
    (getUserIdFromAccessToken env w (accessToken_of bearer)) cid = true
  <-> owns db uid cid.
Proof.
  intros [-> Hne]. unfold MemberRoute.checkIfUserIsCommunityAdmin, owns.
  cbn [truthy]. apply String.eqb_neq in Hne. rewrite Hne. cbn [negb].
  destruct (Prisma.community_findUnique db cid) as [c|].
  - cbn [strict_eq_str]. rewrite String.eqb_eq. split.
    + intros <-. now exists c.
    + intros (c' & [= <-] & Howner). exact Howner.
  - split; [discriminate|]. intros (c' & [=] & _).
Qed.

Lemma admin_check_community (userId : JsVal) (cid : string) :
  MemberRoute.checkIfUserIsCommunityAdmin db userId cid = true ->
  Prisma.community_findUnique db cid <> None.
Proof.
  unfold MemberRoute.checkIfUserIsCommunityAdmin.
  destruct (negb (truthy userId)); [discriminate|].
  destruct (Prisma.community_findUnique db cid); discriminate.
Qed.

Lemma findFirst_is_member (community user : string) :
  Prisma.member_findFirst db community user = None
  <-> ~ is_member db community user.
Proof.
  unfold Prisma.member_findFirst, is_member. split.
  - intros Hnone (m & Hin & <- & <-).
    apply (find_none _ _ Hnone) in Hin.
    now rewrite !String.eqb_refl in Hin.
  - intros Hno.
    destruct (find _ (db_member db)) as [m|] eqn:Hfind; [|reflexivity].
    apply find_some in Hfind as [Hin Hm].
    apply andb_true_iff in Hm as [Hc Hu].
    apply String.eqb_eq in Hc, Hu. exfalso. apply Hno. now exists m.
Qed.

(** What a POST /member can do to the store: nothing, or, after the gate
    and the four checks, append one membership for a pair that had none. *)
Lemma post_outcome (req : MemberRoute.PostRequest) :
  let c := MemberRoute.community req in
  let u := MemberRoute.user req in
  let r := MemberRoute.role req in
  let m := Member.mk (fresh w) c u r (now w) in
  snd (MemberRoute.post env w db req) = db
  /\ fst (MemberRoute.post env w db req) <> MemberRoute.created m
  \/ MemberRoute.post env w db req
     = (MemberRoute.created m,
        mkDb (db_user db) (db_community db) (db_role db)
             (db_member db ++ [m]))
     /\ MemberRoute.checkIfUserIsCommunityAdmin db
          (getUserIdFromAccessToken env w
             (accessToken_of (MemberRoute.bearer req))) c = true
     /\ Prisma.community_findUnique db c <> None
     /\ Prisma.role_findUnique db r <> None
     /\ Prisma.user_findUnique_id db u <> None
     /\ ~ is_member db c u
     /\ Prisma.member_findUnique db (fresh w) = None.
Proof.
  cbv zeta. unfold MemberRoute.post.
  destruct (MemberRoute.checkIfUserIsCommunityAdmin _ _ _) eqn:Hadmin;
    cbn [negb]; [|left; split; [reflexivity|discriminate]].
  destruct (Prisma.community_findUnique db _) eqn:Hc;
    [|left; split; [reflexivity|discriminate]].
  destruct (Prisma.role_findUnique db _) eqn:Hr;
    [|left; split; [reflexivity|discriminate]].
  destruct (Prisma.user_findUnique_id db _) eqn:Hu;
    [|left; split; [reflexivity|discriminate]].
  destruct (Prisma.member_findFirst db _ _) eqn:Hm;
    [left; split; [reflexivity|discriminate]|].
  unfold Prisma.member_create. cbn [Member.id Member.community Member.user
                                     Member.role].
  destruct (Prisma.member_findUnique db (fresh w)) eqn:Hfresh;
    cbn [Prisma.is_some]; [left; split; [reflexivity|discriminate]|].
  rewrite Hc, Hr, Hu. cbn.
  right. repeat split; try discriminate.
  now apply findFirst_is_member.
Qed.

End AddMember.

(** The ownership check is true exactly for the requests that pass the
    gate. *)
Lemma gate_passed (env : Env) (w : World) (db : Db)
  (req : MemberRoute.PostRequest) :
  MemberRoute.checkIfUserIsCommunityAdmin db
    (getUserIdFromAccessToken env w
       (accessToken_of (MemberRoute.bearer req)))
    (MemberRoute.community req) = true
  <-> passes_gate env w db req.
Proof.
  split.
  - unfold MemberRoute.checkIfUserIsCommunityAdmin, passes_gate, identifies,
      owns.
    destruct (getUserIdFromAccessToken env w _) as [| | | |uid| | | | |];
      cbn [truthy negb strict_eq_str];
      try (destruct (Prisma.community_findUnique db _); discriminate);
      try (destruct (negb _); [discriminate|];
           destruct (Prisma.community_findUnique db _); discriminate).
    destruct (String.eqb uid "") eqn:Hempty; [discriminate|]. cbn [negb].
    destruct (Prisma.community_findUnique db _) as [c|]; [|discriminate].
    intros Howner. apply String.eqb_eq in Howner.
    exists uid. split.
    + split; [reflexivity|]. now apply String.eqb_neq.
    + now exists c.
  - intros (uid & Hid & Howns).
    now apply (admin_check_owner env w db _ _ _ Hid).
Qed.

(** C3 fails on the code.  The handler has the 404 answer "Community not
    found." of its own, but places the ownership gate before it, and the
    gate is false for a community that does not exist: a POST /member whose
    community id resolves to no community is answered 403
    NOT_ALLOWED_ACCESS, whoever sends it, and the 404 answer for the
    community is never given, where the role and the user checks next to it
    do answer 404. *)
Theorem missing_community_is_forbidden (env : Env) (w : World) (db : Db)
  (req : MemberRoute.PostRequest) :
  (Prisma.community_findUnique db (MemberRoute.community req) = None ->
   MemberRoute.post env w db req = (not_allowed_access, db))
  /\ fst (MemberRoute.post env w db req)
     <> resource_not_found "community" "Community not found.".
Proof.
  split.
  - intros Hnone. unfold MemberRoute.post.
    destruct (MemberRoute.checkIfUserIsCommunityAdmin _ _ _) eqn:Hadmin;
      [|reflexivity].
    apply admin_check_community in Hadmin. contradiction.
  - destruct (post_outcome env w db req) as [[_ Hresp]|[-> _]];
      [|discriminate].
    unfold MemberRoute.post in *.
    destruct (MemberRoute.checkIfUserIsCommunityAdmin _ _ _) eqn:Hadmin;
      cbn [negb fst] in *; [|discriminate].
    apply admin_check_community in Hadmin.
    destruct (Prisma.community_findUnique db _); [|contradiction].
    destruct (Prisma.role_findUnique db _); [|discriminate].
    destruct (Prisma.user_findUnique_id db _); [|discriminate].
    destruct (Prisma.member_findFirst db _ _); [discriminate|].
    destruct (Prisma.member_create db _) as [[m' db']|]; discriminate.
Qed.

Lemma missing_community_is_forbidden_witness :
  Prisma.community_findUnique Sample.db "c9" = None
  /\ MemberRoute.post Sample.env Sample.w Sample.db
       (MemberRoute.mkPost "c9" "bob" "r1" (Sample.token "alice"))
     = (not_allowed_access, Sample.db).
Proof.
  split; [reflexivity|].
  apply (missing_community_is_forbidden Sample.env Sample.w Sample.db
           (MemberRoute.mkPost "c9" "bob" "r1" (Sample.token "alice"))).
  reflexivity.
Defined.

(** Alice, signed in, names a community that does not exist and is
    answered 403, not the 404 the handler has for it. *)
Lemma missing_community_not_404 :
  MemberRoute.post Sample.env Sample.w Sample.db
    (MemberRoute.mkPost "c9" "bob" "r1" (Sample.token "alice"))
  = (not_allowed_access, Sample.db)
  /\ ~ (Prisma.community_findUnique Sample.db "c9" = None ->
        fst (MemberRoute.post Sample.env Sample.w Sample.db
               (MemberRoute.mkPost "c9" "bob" "r1" (Sample.token "alice")))
        = resource_not_found "community" "Community not found.").
Proof.
  split; [reflexivity|].
  intros Hclaim. specialize (Hclaim eq_refl). discriminate Hclaim.
Qed.

(** C5. On a POST /member whose bearer word identifies a user: when that
    user does not own the target community the answer is 403
    NOT_ALLOWED_ACCESS and nothing is written; when the user owns it, the
    role and user ids resolve, the pair has no membership and the
    identifier the store draws for the row is unused, the membership is
    appended and returned with status 200. *)
Theorem add_member_owner_only (env : Env) (w : World) (db : Db)
  (req : MemberRoute.PostRequest) (uid : string) :
  identifies env w (MemberRoute.bearer req) uid ->
  (~ owns db uid (MemberRoute.community req) ->
   MemberRoute.post env w db req = (not_allowed_access, db))
  /\ (owns db uid (MemberRoute.community req) ->
      Prisma.role_findUnique db (MemberRoute.role req) <> None ->
      Prisma.user_findUnique_id db (MemberRoute.user req) <> None ->
      ~ is_member db (MemberRoute.community req) (MemberRoute.user req) ->
      Prisma.member_findUnique db (fresh w) = None ->
      let m := Member.mk (fresh w) (MemberRoute.community req)
                 (MemberRoute.user req) (MemberRoute.role req) (now w) in
      MemberRoute.post env w db req
      = (mkResponse 200
           (VObj [("status", VBool true);
                  ("content", VObj [("data", VObj (member_obj m))])]),
         mkDb (db_user db) (db_community db) (db_role db)
              (db_member db ++ [m]))).
Proof.
  intros Hid. split.
  - intros Hnot. unfold MemberRoute.post.
    destruct (MemberRoute.checkIfUserIsCommunityAdmin _ _ _) eqn:Hadmin;
      [|reflexivity].
    apply (admin_check_owner env w db _ _ _ Hid) in Hadmin. contradiction.
  - intros Howns Hrole Huser Hnew Hfresh m.
    apply (admin_check_owner env w db _ _ _ Hid) in Howns as Hadmin.
    apply findFirst_is_member in Hnew.
    destruct Howns as (c & Hc & _).
    unfold MemberRoute.post, Prisma.member_create. rewrite Hadmin, Hc.
    destruct (Prisma.role_findUnique db _) eqn:Hr; [|contradiction].
    destruct (Prisma.user_findUnique_id db _) eqn:Hu; [|contradiction].
    rewrite Hnew.
    cbn [Member.id Member.community Member.user Member.role].
    rewrite Hfresh, Hc. reflexivity.
Qed.

Lemma add_member_owner_only_witness :
  identifies Sample.env Sample.w (Sample.token "carol") "carol"
  /\ identifies Sample.env Sample.w (Sample.token "alice") "alice"
  /\ MemberRoute.post Sample.env Sample.w Sample.db
       (MemberRoute.mkPost "c1" "carol" "r1" (Sample.token "carol"))
     = (not_allowed_access, Sample.db)
  /\ MemberRoute.post Sample.env Sample.w Sample.db
       (MemberRoute.mkPost "c1" "carol" "r1" (Sample.token "alice"))
     = (MemberRoute.created (Member.mk "x1" "c1" "carol" "r1" 1000),
        mkDb (db_user Sample.db) (db_community Sample.db) (db_role Sample.db)
             [Sample.m1; Member.mk "x1" "c1" "carol" "r1" 1000]).
Proof.
  assert (Hcarol : identifies Sample.env Sample.w (Sample.token "carol")
                     "carol") by (split; [reflexivity|discriminate]).
  assert (Halice : identifies Sample.env Sample.w (Sample.token "alice")
                     "alice") by (split; [reflexivity|discriminate]).
  split; [exact Hcarol|]. split; [exact Halice|]. split.
  - apply (add_member_owner_only Sample.env Sample.w Sample.db
             (MemberRoute.mkPost "c1" "carol" "r1" (Sample.token "carol"))
             "carol" Hcarol).
    intros (c & [= <-] & Howner). discriminate Howner.
  - apply (add_member_owner_only Sample.env Sample.w Sample.db
             (MemberRoute.mkPost "c1" "carol" "r1" (Sample.token "alice"))
             "alice" Halice).
    + exists Sample.c1. split; reflexivity.
    + discriminate.
    + discriminate.
    + intros (m & [<-|[]] & _ & Huser). discriminate Huser.
    + reflexivity.
Defined.

(** ** One membership per community and user *)

Lemma NoDup_snoc {A} (l : list A) (x : A) :
  NoDup l -> ~ In x l -> NoDup (l ++ [x]).
Proof.
  induction 1 as [|y l Hy Hl IH]; intros Hx; cbn.
  - constructor; [intros []|constructor].
  - constructor.
    + rewrite in_app_iff. intros [Hin|[<-|[]]]; [contradiction|].
      apply Hx. now left.
    + apply IH. intros Hin. apply Hx. now right.
Qed.

(** Dropping rows from the member table keeps the pairs distinct. *)
Lemma unique_after_removal (keep : Member.t -> bool) (ms : list Member.t) :
  NoDup (map member_key ms) -> NoDup (map member_key (filter keep ms)).
Proof.
  induction ms as [|m ms IH]; cbn; [trivial|].
  intros Hnd. apply NoDup_cons_iff in Hnd as [Hm Hms].
  destruct (keep m); cbn; [|now apply IH].
  constructor; [|now apply IH].
  rewrite in_map_iff in *. intros (m' & Hkey & Hin).
  apply filter_In in Hin as [Hin _]. apply Hm. now exists m'.
Qed.

Lemma signup_keeps_members zod_email bcrypt_hash env w db body :
  db_member (snd (UserRoute.signup zod_email bcrypt_hash env w db body))
  = db_member db.
Proof.
  unfold UserRoute.signup, Prisma.user_create.
  destruct (UserRoute.signUpSchema zod_email body); [|reflexivity].
  destruct (Prisma.user_findUnique_email db _); [reflexivity|].
  destruct (_ || _); [reflexivity|].
  destruct (UserRoute.generateAccessToken env w _); reflexivity.
Qed.

Lemma community_post_keeps_members env w db req :
  db_member (snd (CommunityRoute.post env w db req)) = db_member db.
Proof.
  unfold CommunityRoute.post, Prisma.community_create.
  destruct (CommunityRoute.communitySchema _) as [v|[]]; try reflexivity.
  destruct (negb (truthy _)); [reflexivity|].
  destruct (getUserIdFromAccessToken _ _ _); try reflexivity.
  destruct (_ || _); [reflexivity|].
  destruct (negb _); reflexivity.
Qed.

Lemma role_post_keeps_members w db name :
  db_member (snd (RoleRoute.post w db name)) = db_member db.
Proof.
  unfold RoleRoute.post, Prisma.role_create.
  destruct (RoleRoute.roleSchema name); [|reflexivity].
  destruct (_ || _); reflexivity.
Qed.

Lemma member_post_keeps_unique env w db req :
  unique_membership db ->
  unique_membership (snd (MemberRoute.post env w db req)).
Proof.
  intros Hunique.
  destruct (post_outcome env w db req)
    as [[-> _]|(-> & _ & _ & _ & _ & Hnew & _)]; [assumption|].
  unfold unique_membership. cbn [snd db_member].
  rewrite map_app. apply NoDup_snoc; [assumption|].
  cbn [map]. rewrite in_map_iff. intros (m & Hkey & Hin).
  apply Hnew. exists m. injection Hkey as Hc Hu. now repeat split.
Qed.

Lemma member_delete_keeps_unique env w db req :
  unique_membership db ->
  unique_membership (snd (MemberRoute.delete env w db req)).
Proof.
  intros Hunique.
  destruct (Prisma.member_findUnique db (MemberRoute.id req)) as [m|] eqn:Hm.
  - rewrite (delete_never_refuses env w db req m Hm).
    apply unique_after_removal. exact Hunique.
  - unfold MemberRoute.delete. now rewrite Hm.
Qed.

(** Every request leaves at most one membership per pair. *)
Lemma handle_keeps_unique zod_email bcrypt_hash bcrypt_compareSync env w db r :
  unique_membership db ->
  unique_membership
    (snd (handle zod_email bcrypt_hash bcrypt_compareSync env w db r)).
Proof.
  intros Hunique. destruct r; cbn [handle snd]; try assumption.
  - unfold unique_membership. now rewrite signup_keeps_members.
  - unfold unique_membership. now rewrite community_post_keeps_members.
  - unfold unique_membership. now rewrite role_post_keeps_members.
  - now apply member_post_keeps_unique.
  - now apply member_delete_keeps_unique.
Qed.

(** C4, as the handler has it.  Every request keeps at most one membership
    per (community, user) pair.  A POST /member for a pair that already has
    a membership never changes the store; it is answered AlreadyMember
    (400, RESOURCE_EXISTS) when the caller owns the community and the role
    and user ids resolve, whatever the role asked for and whatever the role
    of the membership in place; otherwise the earlier check answers first,
    403 from the ownership gate, 404 for an unknown role, 404 for an
    unknown user.  A POST /member that changes the store has passed the
    gate and the four checks, and appends one membership. *)
Theorem membership_stays_unique zod_email bcrypt_hash bcrypt_compareSync
  (env : Env) (w : World) (db : Db) (req : MemberRoute.PostRequest) :
  (unique_membership db ->
   forall r, unique_membership
               (snd (handle zod_email bcrypt_hash bcrypt_compareSync
                       env w db r)))
  /\ (is_member db (MemberRoute.community req) (MemberRoute.user req) ->
      snd (MemberRoute.post env w db req) = db
      /\ (~ passes_gate env w db req ->
          fst (MemberRoute.post env w db req) = not_allowed_access)
      /\ (passes_gate env w db req ->
          Prisma.role_findUnique db (MemberRoute.role req) = None ->
          fst (MemberRoute.post env w db req)
          = resource_not_found "role" "Role not found.")
      /\ (passes_gate env w db req ->
          Prisma.role_findUnique db (MemberRoute.role req) <> None ->
          Prisma.user_findUnique_id db (MemberRoute.user req) = None ->
          fst (MemberRoute.post env w db req)
          = resource_not_found "user" "User not found.")
      /\ (passes_gate env w db req ->
          Prisma.role_findUnique db (MemberRoute.role req) <> None ->
          Prisma.user_findUnique_id db (MemberRoute.user req) <> None ->
          fst (MemberRoute.post env w db req)
          = mkResponse 400
              (failure
                 [VObj [("message",
                         VStr "User is already added in the community.");
                        ("code", VStr "RESOURCE_EXISTS")]])))
  /\ (snd (MemberRoute.post env w db req) <> db ->
      passes_gate env w db req
      /\ Prisma.community_findUnique db (MemberRoute.community req) <> None
      /\ Prisma.role_findUnique db (MemberRoute.role req) <> None
      /\ Prisma.user_findUnique_id db (MemberRoute.user req) <> None
      /\ ~ is_member db (MemberRoute.community req) (MemberRoute.user req)
      /\ db_member (snd (MemberRoute.post env w db req))
         = (db_member db
              ++ [Member.mk (fresh w) (MemberRoute.community req)
                    (MemberRoute.user req) (MemberRoute.role req) (now w)])%list).
Proof.
  split; [|split].
  - intros Hunique r. now apply handle_keeps_unique.
  - intros Hmember. split.
    { destruct (post_outcome env w db req)
        as [[Hsame _]|(_ & _ & _ & _ & _ & Hnew & _)];
        [assumption|contradiction]. }
    split.
    { intros Hgate. unfold MemberRoute.post.
      destruct (MemberRoute.checkIfUserIsCommunityAdmin _ _ _) eqn:Hadmin;
        [|reflexivity].
      apply gate_passed in Hadmin. contradiction. }
    assert (Hopen : passes_gate env w db req ->
                    MemberRoute.post env w db req
                    = match Prisma.role_findUnique db (MemberRoute.role req)
                      with
                      | None =>
                          (resource_not_found "role" "Role not found.", db)
                      | Some _ =>
                          match Prisma.user_findUnique_id db
                                  (MemberRoute.user req) with
                          | None =>
                              (resource_not_found "user" "User not found.",
                               db)
                          | Some _ => (MemberRoute.already_member, db)
                          end
                      end).
    { intros Hgate. pose proof Hgate as (uid & _ & c & Hc & _).
      apply gate_passed in Hgate.
      unfold MemberRoute.post. rewrite Hgate, Hc. cbn [negb].
      destruct (Prisma.role_findUnique db _); [|reflexivity].
      destruct (Prisma.user_findUnique_id db _); [|reflexivity].
      destruct (Prisma.member_findFirst db _ _) eqn:Hfirst; [reflexivity|].
      apply findFirst_is_member in Hfirst. contradiction. }
    split; [|split].
    + intros Hgate Hrole. now rewrite (Hopen Hgate), Hrole.
    + intros Hgate Hrole Huser. rewrite (Hopen Hgate), Huser.
      destruct (Prisma.role_findUnique db _); [reflexivity|contradiction].
    + intros Hgate Hrole Huser. rewrite (Hopen Hgate).
      destruct (Prisma.role_findUnique db _); [|contradiction].
      destruct (Prisma.user_findUnique_id db _); [reflexivity|contradiction].
  - intros Hchanged.
    destruct (post_outcome env w db req)
      as [[Hsame _]|(-> & Hadmin & Hc & Hr & Hu & Hnew & _)];
      [contradiction|].
    apply gate_passed in Hadmin. repeat split; assumption.
Qed.

Lemma membership_stays_unique_witness :
  is_member Sample.db "c1" "bob"
  /\ passes_gate Sample.env Sample.w Sample.db
       (MemberRoute.mkPost "c1" "bob" "r1" (Sample.token "alice"))
  /\ MemberRoute.post Sample.env Sample.w Sample.db
       (MemberRoute.mkPost "c1" "bob" "r1" (Sample.token "alice"))
     = (MemberRoute.already_member, Sample.db)
  /\ ~ passes_gate Sample.env Sample.w Sample.db
        (MemberRoute.mkPost "c1" "bob" "r1" (Sample.token "carol"))
  /\ MemberRoute.post Sample.env Sample.w Sample.db
       (MemberRoute.mkPost "c1" "bob" "r1" (Sample.token "carol"))
     = (not_allowed_access, Sample.db).
Proof.
  assert (Hmember : is_member Sample.db "c1" "bob")
    by (exists Sample.m1; repeat split; now left).
  assert (Hgate : passes_gate Sample.env Sample.w Sample.db
                    (MemberRoute.mkPost "c1" "bob" "r1"
                       (Sample.token "alice"))).
  { exists "alice". split; [split; [reflexivity|discriminate]|].
    exists Sample.c1. split; reflexivity. }
  assert (Hclosed : ~ passes_gate Sample.env Sample.w Sample.db
                      (MemberRoute.mkPost "c1" "bob" "r1"
                         (Sample.token "carol"))).
  { intros (uid & [Hid _] & c & Hc & Howner).
    injection Hid as <-. injection Hc as <-. discriminate Howner. }
  split; [exact Hmember|]. split; [exact Hgate|].
  destruct (membership_stays_unique Sample.zod_email Sample.bcrypt_hash
              Sample.bcrypt_compareSync Sample.env Sample.w Sample.db
              (MemberRoute.mkPost "c1" "bob" "r1" (Sample.token "alice")))
    as (_ & Hadd & _).
  destruct (Hadd Hmember) as (Hsame & _ & _ & _ & Hresp).
  destruct (membership_stays_unique Sample.zod_email Sample.bcrypt_hash
              Sample.bcrypt_compareSync Sample.env Sample.w Sample.db
              (MemberRoute.mkPost "c1" "bob" "r1" (Sample.token "carol")))
    as (_ & Hadd' & _).
  destruct (Hadd' Hmember) as (Hsame' & Hforbidden & _).
  split; [|split; [exact Hclosed|]].
  - rewrite (surjective_pairing (MemberRoute.post _ _ _ _)).
    rewrite Hsame, (Hresp Hgate); [reflexivity|discriminate|discriminate].
  - rewrite (surjective_pairing (MemberRoute.post _ _ _ _)).
    now rewrite Hsame', (Hforbidden Hclosed).
Defined.

(** C4 as written fails: Bob is a member of [c1]; Alice, the owner, adds
    him again with a role id that resolves to no role, and the answer is the
    404 for the role, not AlreadyMember. *)
Lemma second_add_with_unknown_role :
  MemberRoute.post Sample.env Sample.w Sample.db
    (MemberRoute.mkPost "c1" "bob" "r9" (Sample.token "alice"))
  = (resource_not_found "role" "Role not found.", Sample.db)
  /\ ~ (unique_membership Sample.db ->
        is_member Sample.db "c1" "bob" ->
        fst (MemberRoute.post Sample.env Sample.w Sample.db
               (MemberRoute.mkPost "c1" "bob" "r9" (Sample.token "alice")))
        = MemberRoute.already_member).
Proof.
  split; [reflexivity|].
  intros Hclaim.
  assert (Hunique : unique_membership Sample.db).
  { unfold unique_membership. cbn. constructor; [intros []|constructor]. }
  assert (Hmember : is_member Sample.db "c1" "bob")
    by (exists Sample.m1; repeat split; now left).
  specialize (Hclaim Hunique Hmember). discriminate Hclaim.
Qed.

(** * Further properties of the handlers *)

(** ** Tokens and sessions *)

(** X1. A sign-in token identifies its user for one hour: verified less
    than 3600 seconds after it was issued it gives the user id, from 3600
    seconds on it gives [null]. *)
Theorem signin_token_lifetime (env : Env) (w w' : World) (user : User.t)
  (tok : JsVal) :
  UserRoute.signin_token env w user = Ok tok ->
  (now w' < now w + 3600 ->
   getUserIdFromAccessToken env w' tok = VStr (User.id user))
  /\ (now w + 3600 <= now w' ->
      getUserIdFromAccessToken env w' tok = VNull).
Proof.
  intros Hsign. split; intros Hnow.
  - exact (signin_token_round_trip env w w' user tok Hsign Hnow).
  - exact (signin_token_expires env w w' user tok Hsign Hnow).
Qed.

Lemma signin_token_lifetime_witness :
  UserRoute.signin_token Sample.env (mkWorld 900 "") Sample.alice
  = Ok (Sample.token "alice")
  /\ getUserIdFromAccessToken Sample.env (mkWorld 4499 "")
       (Sample.token "alice") = VStr "alice"
  /\ getUserIdFromAccessToken Sample.env (mkWorld 4500 "")
       (Sample.token "alice") = VNull.
Proof.
  split; [reflexivity|].
  split.
  - apply (signin_token_lifetime Sample.env (mkWorld 900 "")
             (mkWorld 4499 "") Sample.alice (Sample.token "alice") eq_refl).
    reflexivity.
  - apply (signin_token_lifetime Sample.env (mkWorld 900 "")
             (mkWorld 4500 "") Sample.alice (Sample.token "alice") eq_refl).
    cbn. lia.
Defined.

(** X2. The earlier sign-up code always issues a token, signed with the
    literal key; unless the configured secret is that same literal, every
    handler reads [null] out of it. *)
Theorem literal_key_token_refused (env : Env) (w w' : World)
  (userId : string) :
  JWT_SECRET env <> Some "1x234" ->
  exists tok,
    UserRoute.generateAccessToken_literal w userId = Ok tok
    /\ getUserIdFromAccessToken env w' tok = VNull.
Proof.
  intros Hsecret. eexists. split; [reflexivity|].
  unfold getUserIdFromAccessToken, Jwt.verify.
  destruct (JWT_SECRET env) as [s|]; [|reflexivity].
  destruct (String.eqb s ""); [reflexivity|].
  destruct (String.eqb_spec "1x234" s) as [<-|_]; [congruence|reflexivity].
Qed.

Lemma literal_key_token_refused_witness :
  exists tok,
    UserRoute.generateAccessToken_literal Sample.w "u1" = Ok tok
    /\ getUserIdFromAccessToken Sample.env Sample.w tok = VNull.
Proof.
  apply (literal_key_token_refused Sample.env Sample.w Sample.w "u1").
  discriminate.
Defined.

(** X3. With the secret missing or empty nobody is signed in: every bearer
    word reads as [null], so POST /member answers 403 and a well-formed
    POST /community answers 401, both without writing. *)
Theorem unset_secret_signs_nobody_in (env : Env) (w : World) (db : Db) :
  secret_unset env ->
  (forall tok, getUserIdFromAccessToken env w tok = VNull)
  /\ (forall req, MemberRoute.post env w db req = (not_allowed_access, db))
  /\ (forall req,
        CommunityRoute.communitySchema (CommunityRoute.name req)
        = Ok (CommunityRoute.name req) ->
        CommunityRoute.post env w db req = (not_signedin, db)).
Proof.
  intros Hunset.
  assert (Hnull : forall tok, getUserIdFromAccessToken env w tok = VNull).
  { intros tok. unfold getUserIdFromAccessToken, Jwt.verify.
    destruct Hunset as [-> | ->]; destruct tok; try reflexivity;
      destruct (String.eqb _ _); reflexivity. }
  split; [exact Hnull|]. split.
  - intros req. unfold MemberRoute.post. now rewrite Hnull.
  - intros req Hschema. unfold CommunityRoute.post.
    now rewrite Hschema, Hnull.
Qed.

Lemma unset_secret_signs_nobody_in_witness :
  getUserIdFromAccessToken (mkEnv None) Sample.w (Sample.token "alice")
  = VNull
  /\ CommunityRoute.post (mkEnv None) Sample.w Sample.db
       (CommunityRoute.mkPost "Chess" (Sample.token "alice"))
     = (not_signedin, Sample.db).
Proof.
  destruct (unset_secret_signs_nobody_in (mkEnv None) Sample.w Sample.db
              (or_introl eq_refl)) as (Hnull & _ & Hpost).
  split; [apply Hnull|]. apply Hpost. reflexivity.
Defined.

(** Looking a row up after one was appended to its table. *)
Lemma find_after_append {A} (test : A -> bool) (rows : list A) (row : A) :
  find test (rows ++ [row])
  = match find test rows with
    | Some hit => Some hit
    | None => if test row then Some row else None
    end.
Proof.
  induction rows as [|r rows IH]; cbn; [reflexivity|].
  destruct (test r); [reflexivity|exact IH].
Qed.

(** Under a primary key a stored row is what a lookup of its key finds. *)
Lemma find_stored_row {A} (key : A -> string) (rows : list A) (row : A) :
  NoDup (map key rows) -> In row rows ->
  find (fun r => String.eqb (key r) (key row)) rows = Some row.
Proof.
  induction rows as [|r rows IH]; cbn; [intros _ []|].
  intros Hnd Hin. apply NoDup_cons_iff in Hnd as [Hfresh Hnd].
  destruct Hin as [->|Hin]; [now rewrite String.eqb_refl|].
  destruct (String.eqb_spec (key r) (key row)) as [Heq|_]; [|now apply IH].
  exfalso. apply Hfresh. rewrite Heq. now apply in_map.
Qed.

Lemma find_none_key {A} (key : A -> string) (rows : list A) (k : string) :
  find (fun r => String.eqb (key r) k) rows = None <-> ~ In k (map key rows).
Proof.
  induction rows as [|r rows IH]; cbn; [tauto|].
  destruct (String.eqb_spec (key r) k) as [Heq|Hneq].
  - split; [discriminate|]. intros Hno. exfalso. apply Hno. now left.
  - rewrite IH. tauto.
Qed.

(** ** Accounts *)

Section Accounts.

Variable zod_email : string -> bool.
Variable bcrypt_hash : string -> string.
Variable bcrypt_compareSync : string -> string -> bool.

Local Abbreviation signup := (UserRoute.signup zod_email bcrypt_hash).
Local Abbreviation signin := (UserRoute.signin zod_email bcrypt_compareSync).

(** The row a sign-up stores. *)
Local Abbreviation new_user w body :=
  (User.mk (fresh w) (Some (UserRoute.name body)) (UserRoute.email body)
           (bcrypt_hash (UserRoute.password body)) (now w)).

Local Abbreviation with_user db u :=
  (mkDb (db_user db ++ [u]) (db_community db) (db_role db) (db_member db)).

(** What a sign-up answered 200 went through. *)
Lemma signup_created (env : Env) (w : World) (db : Db)
  (body : UserRoute.SignUpBody) :
  status (fst (signup env w db body)) = 200 ->
  UserRoute.signUpSchema zod_email body = []
  /\ Prisma.user_findUnique_email db (UserRoute.email body) = None
  /\ Prisma.user_findUnique_id db (fresh w) = None
  /\ (exists tok, UserRoute.generateAccessToken env w (fresh w) = Ok tok)
  /\ snd (signup env w db body) = with_user db (new_user w body).
Proof.
  unfold UserRoute.signup, Prisma.user_create.
  destruct (UserRoute.signUpSchema zod_email body); [|discriminate].
  destruct (Prisma.user_findUnique_email db _) eqn:Hmail; [discriminate|].
  cbn [User.id User.email].
  destruct (Prisma.user_findUnique_id db (fresh w)); [discriminate|].
  cbn [Prisma.is_some orb].
  cbn [User.id].
  destruct (UserRoute.generateAccessToken env w (fresh w)) as [tok|];
    [|cbn; discriminate].
  intros _. repeat split. now exists tok.
Qed.

(** X4. Whatever the request, a sign-up either leaves the store as it is
    or appends one user row whose password is the bcrypt hash of the
    password sent; an answer 200 means the row was appended; and no answer
    carries a [password] field in its data. *)
Theorem signup_outcome (env : Env) (w : World) (db : Db)
  (body : UserRoute.SignUpBody) :
  (snd (signup env w db body) = db
   \/ snd (signup env w db body) = with_user db (new_user w body))
  /\ (status (fst (signup env w db body)) = 200 ->
      snd (signup env w db body) = with_user db (new_user w body))
  /\ field (response_data (fst (signup env w db body))) "password"
     = VUndefined.
Proof.
  split; [|split].
  - unfold UserRoute.signup, Prisma.user_create.
    destruct (UserRoute.signUpSchema zod_email body); [|now left].
    destruct (Prisma.user_findUnique_email db _); [now left|].
    destruct (_ || _); [now left|].
    destruct (UserRoute.generateAccessToken env w _); now right.
  - intros Hok. now apply signup_created.
  - unfold UserRoute.signup, Prisma.user_create.
    destruct (UserRoute.signUpSchema zod_email body); [|reflexivity].
    destruct (Prisma.user_findUnique_email db _); [reflexivity|].
    destruct (_ || _); [reflexivity|].
    destruct (UserRoute.generateAccessToken env w _); reflexivity.
Qed.

(** X5. After a sign-up answered 200, any well-formed sign-up with the
    same email is answered 409 RESOURCE_EXISTS and writes nothing. *)
Theorem second_signup_conflicts (env : Env) (w w' : World) (db : Db)
  (body body' : UserRoute.SignUpBody) :
  status (fst (signup env w db body)) = 200 ->
  UserRoute.signUpSchema zod_email body' = [] ->
  UserRoute.email body' = UserRoute.email body ->
  signup env w' (snd (signup env w db body)) body'
  = (mkResponse 409
       (failure
          [VObj [("param", VStr "email");
                 ("message",
                  VStr "User with this email address already exists.");
                 ("code", VStr "RESOURCE_EXISTS")]]),
     snd (signup env w db body)).
Proof.
  intros Hok Hschema Hmail.
  destruct (signup_created env w db body Hok) as (_ & Hnew & _ & _ & ->).
  unfold UserRoute.signup at 1. rewrite Hschema, Hmail.
  unfold Prisma.user_findUnique_email in *. cbn [db_user].
  rewrite find_after_append, Hnew. cbn [User.email].
  now rewrite String.eqb_refl.
Qed.

(** X6. With the secret missing or empty a well-formed sign-up for a new
    email still stores the account and then answers 500: the token is
    signed after the row is written. *)
Theorem signup_without_secret_keeps_account (env : Env) (w : World) (db : Db)
  (body : UserRoute.SignUpBody) :
  secret_unset env ->
  UserRoute.signUpSchema zod_email body = [] ->
  Prisma.user_findUnique_email db (UserRoute.email body) = None ->
  Prisma.user_findUnique_id db (fresh w) = None ->
  signup env w db body
  = (internal_server_error, with_user db (new_user w body)).
Proof.
  intros Hunset Hschema Hmail Hid.
  unfold UserRoute.signup, Prisma.user_create.
  rewrite Hschema, Hmail. cbn [User.id User.email]. rewrite Hid, Hmail.
  cbn [Prisma.is_some orb].
  unfold UserRoute.generateAccessToken, Jwt.sign.
  destruct Hunset as [-> | ->]; reflexivity.
Qed.

(** X7. Sign-up then sign-in.  When bcrypt accepts the password against
    its own hash, signing in with the email and password of a sign-up that
    was answered 200 is answered 200, at any later time, and the token of
    that answer identifies the new account. *)
Theorem signup_then_signin_succeeds (env : Env) (w w' : World) (db : Db)
  (body : UserRoute.SignUpBody) :
  bcrypt_compareSync (UserRoute.password body)
    (bcrypt_hash (UserRoute.password body)) = true ->
  status (fst (signup env w db body)) = 200 ->
  let answer :=
    signin env w' (snd (signup env w db body))
      (UserRoute.mkSignIn (UserRoute.email body) (UserRoute.password body)) in
  status answer = 200
  /\ getUserIdFromAccessToken env w' (response_token answer)
     = VStr (fresh w)
  /\ field (response_data answer) "email" = VStr (UserRoute.email body).
Proof.
  intros Hbcrypt Hok answer. subst answer.
  destruct (signup_created env w db body Hok)
    as (Hschema & Hnew & _ & [tok Htok] & ->).
  unfold UserRoute.signUpSchema in Hschema.
  apply app_eq_nil in Hschema as [_ Hschema].
  unfold UserRoute.signin, UserRoute.signInSchema.
  cbn [UserRoute.in_email UserRoute.in_password]. rewrite Hschema.
  unfold Prisma.user_findUnique_email in *. cbn [db_user].
  rewrite find_after_append, Hnew. cbn [User.email].
  rewrite String.eqb_refl. cbn [User.password]. rewrite Hbcrypt. cbn [negb].
  unfold UserRoute.generateAccessToken, Jwt.sign in Htok.
  unfold UserRoute.signin_token, Jwt.sign. cbn [User.id].
  destruct (JWT_SECRET env) as [k|] eqn:Hsecret; [|discriminate].
  destruct (String.eqb k "") eqn:Hk; [discriminate|].
  cbn. repeat split.
  unfold getUserIdFromAccessToken, Jwt.verify.
  rewrite Hsecret, Hk, String.eqb_refl. cbn.
  destruct (Z.ltb_spec (now w') (now w' + 3600)); [reflexivity|lia].
Qed.

End Accounts.

Lemma signup_outcome_witness :
  status (fst (UserRoute.signup Sample.zod_email Sample.bcrypt_hash
                 Sample.env Sample.w Sample.db
                 (UserRoute.mkSignUp "Dave" "dave@x.org" "dave-pw"))) = 200
  /\ snd (UserRoute.signup Sample.zod_email Sample.bcrypt_hash Sample.env
            Sample.w Sample.db
            (UserRoute.mkSignUp "Dave" "dave@x.org" "dave-pw"))
     = mkDb (db_user Sample.db
               ++ [User.mk "x1" (Some "Dave") "dave@x.org" "$2b$dave-pw" 1000])
            (db_community Sample.db) (db_role Sample.db)
            (db_member Sample.db).
Proof.
  split; [reflexivity|].
  apply (signup_outcome Sample.zod_email Sample.bcrypt_hash Sample.env
           Sample.w Sample.db
           (UserRoute.mkSignUp "Dave" "dave@x.org" "dave-pw")).
  reflexivity.
Defined.

Lemma second_signup_conflicts_witness :
  status
    (fst (UserRoute.signup Sample.zod_email Sample.bcrypt_hash Sample.env
            (mkWorld 2000 "x2")
            (snd (UserRoute.signup Sample.zod_email Sample.bcrypt_hash
                    Sample.env Sample.w Sample.db
                    (UserRoute.mkSignUp "Dave" "dave@x.org" "dave-pw")))
            (UserRoute.mkSignUp "David" "dave@x.org" "another-pw"))) = 409.
Proof.
  rewrite (second_signup_conflicts Sample.zod_email Sample.bcrypt_hash
             Sample.env Sample.w (mkWorld 2000 "x2") Sample.db
             (UserRoute.mkSignUp "Dave" "dave@x.org" "dave-pw")
             (UserRoute.mkSignUp "David" "dave@x.org" "another-pw")
             eq_refl eq_refl eq_refl).
  reflexivity.
Defined.

Lemma signup_without_secret_keeps_account_witness :
  UserRoute.signup Sample.zod_email Sample.bcrypt_hash (mkEnv None) Sample.w
    Sample.db (UserRoute.mkSignUp "Dave" "dave@x.org" "dave-pw")
  = (internal_server_error,
     mkDb (db_user Sample.db
             ++ [User.mk "x1" (Some "Dave") "dave@x.org" "$2b$dave-pw" 1000])
          (db_community Sample.db) (db_role Sample.db) (db_member Sample.db)).
Proof.
  apply (signup_without_secret_keeps_account Sample.zod_email
           Sample.bcrypt_hash (mkEnv None) Sample.w Sample.db
           (UserRoute.mkSignUp "Dave" "dave@x.org" "dave-pw")
           (or_introl eq_refl) eq_refl eq_refl eq_refl).
Defined.

Lemma signup_then_signin_succeeds_witness :
  status
    (UserRoute.signin Sample.zod_email Sample.bcrypt_compareSync Sample.env
       (mkWorld 9000 "")
       (snd (UserRoute.signup Sample.zod_email Sample.bcrypt_hash Sample.env
               Sample.w Sample.db
               (UserRoute.mkSignUp "Dave" "dave@x.org" "dave-pw")))
       (UserRoute.mkSignIn "dave@x.org" "dave-pw")) = 200.
Proof.
  apply (signup_then_signin_succeeds Sample.zod_email Sample.bcrypt_hash
           Sample.bcrypt_compareSync Sample.env Sample.w (mkWorld 9000 "")
           Sample.db (UserRoute.mkSignUp "Dave" "dave@x.org" "dave-pw")
           eq_refl eq_refl).
Defined.

(** ** Sessions *)

(** X8. GET /auth/me answers 200 only for a bearer word that verifies to
    the id of a stored user, and then with that user's id, name, email and
    creation date and nothing else. *)
Theorem me_answers_for_stored_user_only (env : Env) (w : World) (db : Db)
  (bearer : JsVal) :
  status (UserRoute.me env w db bearer) = 200 ->
  exists user,
    getUserIdFromAccessToken env w bearer = VStr (User.id user)
    /\ In user (db_user db)
    /\ response_data (UserRoute.me env w db bearer)
       = VObj [("id", VStr (User.id user));
               ("name", opt_str (User.name user));
               ("email", VStr (User.email user));
               ("created_at", VDate (User.created_at user))].
Proof.
  unfold UserRoute.me.
  destruct (negb (truthy bearer)); [discriminate|].
  destruct (negb (truthy (getUserIdFromAccessToken env w bearer)));
    [discriminate|].
  destruct (getUserIdFromAccessToken env w bearer) as [| | | |uid| | | | |];
    try discriminate.
  destruct (Prisma.user_findUnique_id db uid) as [user|] eqn:Hfind;
    [|discriminate].
  intros _. exists user.
  apply find_some in Hfind as [Hin Hid]. apply String.eqb_eq in Hid.
  subst uid. repeat split. exact Hin.
Qed.

Lemma me_answers_for_stored_user_only_witness :
  exists user,
    getUserIdFromAccessToken Sample.env Sample.w (Sample.token "bob")
    = VStr (User.id user)
    /\ In user (db_user Sample.db)
    /\ response_data (UserRoute.me Sample.env Sample.w Sample.db
                        (Sample.token "bob"))
       = VObj [("id", VStr (User.id user));
               ("name", opt_str (User.name user));
               ("email", VStr (User.email user));
               ("created_at", VDate (User.created_at user))].
Proof.
  apply (me_answers_for_stored_user_only Sample.env Sample.w Sample.db
           (Sample.token "bob")).
  reflexivity.
Defined.

Section SignInSession.

Variable zod_email : string -> bool.
Variable bcrypt_compareSync : string -> string -> bool.

Local Abbreviation signin := (UserRoute.signin zod_email bcrypt_compareSync).

(** X9. Sign-in then GET /auth/me.  On a store whose user ids are distinct
    and not empty, the token of a sign-in answered 200, presented within
    the hour, makes GET /auth/me answer 200 with the very user object the
    sign-in answered. *)
Theorem signin_then_me_same_user (env : Env) (w w' : World) (db : Db)
  (body : UserRoute.SignInBody) :
  NoDup (map User.id (db_user db)) ->
  ~ In "" (map User.id (db_user db)) ->
  status (signin env w db body) = 200 ->
  now w' < now w + 3600 ->
  UserRoute.me env w' db (response_token (signin env w db body))
  = mkResponse 200
      (VObj [("status", VBool true);
             ("content",
              VObj [("data", response_data (signin env w db body))])]).
Proof.
  intros Hkeys Hnonempty Hok Hnow. unfold UserRoute.signin in *.
  destruct (UserRoute.signInSchema zod_email body); [|discriminate].
  destruct (Prisma.user_findUnique_email db _) as [user|] eqn:Hfind;
    [|discriminate].
  destruct (negb _); [discriminate|].
  destruct (UserRoute.signin_token env w user) as [tok|] eqn:Htok;
    [|discriminate].
  apply find_some in Hfind as [Hin _].
  assert (Hid : String.eqb (User.id user) "" = false).
  { apply String.eqb_neq. intros Hempty. apply Hnonempty.
    rewrite <- Hempty. now apply in_map. }
  assert (Htruthy : truthy tok = true).
  { unfold UserRoute.signin_token, Jwt.sign in Htok.
    destruct (JWT_SECRET env); [|discriminate].
    destruct (String.eqb _ ""); [discriminate|]. now injection Htok as <-. }
  unfold UserRoute.me, response_token, response_data. cbn [json field get_prop
    String.eqb Ascii.eqb Bool.eqb].
  rewrite Htruthy, (signin_token_round_trip env w w' user tok Htok Hnow).
  cbn [truthy negb]. rewrite Hid. cbn [negb].
  unfold Prisma.user_findUnique_id.
  rewrite (find_stored_row User.id _ user Hkeys Hin).
  reflexivity.
Qed.

End SignInSession.

Lemma signin_then_me_same_user_witness :
  UserRoute.me Sample.env (mkWorld 4000 "") Sample.db
    (response_token
       (UserRoute.signin Sample.zod_email Sample.bcrypt_compareSync
          Sample.env Sample.w Sample.db
          (UserRoute.mkSignIn "alice@x.org" "alice-pw")))
  = mkResponse 200
      (VObj [("status", VBool true);
             ("content",
              VObj [("data",
                     VObj [("id", VStr "alice"); ("name", VStr "Alice");
                           ("email", VStr "alice@x.org");
                           ("created_at", VDate 10)])])]).
Proof.
  rewrite (signin_then_me_same_user Sample.zod_email
             Sample.bcrypt_compareSync Sample.env Sample.w (mkWorld 4000 "")
             Sample.db (UserRoute.mkSignIn "alice@x.org" "alice-pw")).
  - reflexivity.
  - cbn. repeat constructor; cbn; intuition discriminate.
  - cbn. intuition discriminate.
  - reflexivity.
  - cbn. lia.
Defined.

(** ** Communities *)

Lemma community_schema_ok (name : string) :
  (2 <= String.length name)%nat ->
  CommunityRoute.communitySchema name = Ok name.
Proof.
  intros Hlen. unfold CommunityRoute.communitySchema.
  destruct (Z.ltb_spec (Z.of_nat (String.length name)) 2); [lia|reflexivity].
Qed.

(** X10. POST /community checks the name before the caller: a name
    shorter than two characters is answered 400 INVALID_INPUT even with a
    valid token, a longer name without an identified caller 401
    NOT_SIGNEDIN; and the store is written only when the answer is 201. *)
Theorem community_post_refusals (env : Env) (w : World) (db : Db)
  (req : CommunityRoute.PostRequest) :
  ((String.length (CommunityRoute.name req) < 2)%nat ->
   CommunityRoute.post env w db req
   = (invalid_input [too_small "name" "2"], db))
  /\ ((2 <= String.length (CommunityRoute.name req))%nat ->
      truthy (getUserIdFromAccessToken env w
                (accessToken_of (CommunityRoute.bearer req))) = false ->
      CommunityRoute.post env w db req = (not_signedin, db))
  /\ (status (fst (CommunityRoute.post env w db req)) <> 201 ->
      snd (CommunityRoute.post env w db req) = db).
Proof.
  split; [|split].
  - intros Hshort. unfold CommunityRoute.post, CommunityRoute.communitySchema.
    destruct (Z.ltb_spec (Z.of_nat (String.length (CommunityRoute.name req)))
                2); [reflexivity|lia].
  - intros Hlen Hanon. unfold CommunityRoute.post.
    now rewrite (community_schema_ok _ Hlen), Hanon.
  - unfold CommunityRoute.post, Prisma.community_create.
    destruct (CommunityRoute.communitySchema _) as [v|[]]; try reflexivity.
    destruct (negb (truthy _)); [reflexivity|].
    destruct (getUserIdFromAccessToken _ _ _); try reflexivity.
    destruct (_ || _); [reflexivity|].
    destruct (negb _); [reflexivity|].
    cbn. congruence.
Qed.

Lemma community_post_refusals_witness :
  CommunityRoute.post Sample.env Sample.w Sample.db
    (CommunityRoute.mkPost "A" (Sample.token "alice"))
  = (invalid_input [too_small "name" "2"], Sample.db)
  /\ CommunityRoute.post Sample.env Sample.w Sample.db
       (CommunityRoute.mkPost "Chess" VUndefined)
     = (not_signedin, Sample.db).
Proof.
  split.
  - apply (community_post_refusals Sample.env Sample.w Sample.db
             (CommunityRoute.mkPost "A" (Sample.token "alice"))).
    cbn. lia.
  - apply (community_post_refusals Sample.env Sample.w Sample.db
             (CommunityRoute.mkPost "Chess" VUndefined)).
    + cbn. lia.
    + reflexivity.
Defined.

(** X11. A well-formed POST /community by a signed-in caller whose name
    gives a slug that a stored community already has is answered 500
    INTERNAL_SERVER_ERROR and writes nothing: the unique index refuses the
    row and the handler has no answer of its own for that. *)
Theorem taken_slug_is_internal_error (env : Env) (w : World) (db : Db)
  (req : CommunityRoute.PostRequest) (uid : string) (c : Community.t) :
  (2 <= String.length (CommunityRoute.name req))%nat ->
  identifies env w (CommunityRoute.bearer req) uid ->
  In c (db_community db) ->
  Community.slug c = generateSlug (CommunityRoute.name req) ->
  CommunityRoute.post env w db req = (internal_server_error, db).
Proof.
  intros Hlen [Hid Hne] Hin Hslug. unfold CommunityRoute.post.
  rewrite (community_schema_ok _ Hlen), Hid. cbn [truthy].
  apply String.eqb_neq in Hne. rewrite Hne. cbn [negb].
  unfold Prisma.community_create. cbn [Community.id Community.slug].
  assert (Htaken : existsb
                     (fun c' => String.eqb (Community.slug c')
                                  (generateSlug (CommunityRoute.name req)))
                     (db_community db) = true).
  { apply existsb_exists. exists c. split; [exact Hin|].
    now apply String.eqb_eq. }
  rewrite Htaken, orb_true_r. reflexivity.
Qed.

Lemma taken_slug_is_internal_error_witness :
  generateSlug "TEST   Club" = Community.slug Sample.c1
  /\ CommunityRoute.post Sample.env Sample.w Sample.db
       (CommunityRoute.mkPost "TEST   Club" (Sample.token "bob"))
     = (internal_server_error, Sample.db).
Proof.
  split; [reflexivity|].
  apply (taken_slug_is_internal_error Sample.env Sample.w Sample.db
           (CommunityRoute.mkPost "TEST   Club" (Sample.token "bob"))
           "bob" Sample.c1).
  - cbn. lia.
  - split; [reflexivity|discriminate].
  - now left.
  - reflexivity.
Defined.

(** X12. Whoever creates a community owns it: after a POST /community
    answered 201 the bearer word identifies a user who owns the new
    community, so the same word passes the ownership gate of POST /member
    for it. *)
Theorem creator_owns_new_community (env : Env) (w : World) (db : Db)
  (req : CommunityRoute.PostRequest) :
  status (fst (CommunityRoute.post env w db req)) = 201 ->
  exists uid,
    identifies env w (CommunityRoute.bearer req) uid
    /\ owns (snd (CommunityRoute.post env w db req)) uid (fresh w)
    /\ MemberRoute.checkIfUserIsCommunityAdmin
         (snd (CommunityRoute.post env w db req))
         (getUserIdFromAccessToken env w
            (accessToken_of (CommunityRoute.bearer req))) (fresh w) = true.
Proof.
  unfold CommunityRoute.post, Prisma.community_create.
  destruct (CommunityRoute.communitySchema _) as [v|[]]; try discriminate.
  destruct (negb (truthy _)) eqn:Htruthy; [discriminate|].
  destruct (getUserIdFromAccessToken _ _ _) as [| | | |uid| | | | |] eqn:Hid;
    try discriminate.
  assert (Hne : uid <> "").
  { intros ->. cbn in Htruthy. discriminate Htruthy. }
  assert (Hgate : negb (truthy (VStr uid)) = false) by exact Htruthy.
  clear Htruthy.
  cbn [Community.id Community.slug Community.owner].
  destruct (Prisma.community_findUnique db (fresh w)) eqn:Hfresh;
    [discriminate|].
  cbn [Prisma.is_some orb].
  destruct (existsb _ _); [discriminate|].
  destruct (negb (Prisma.is_some _)); [discriminate|].
  intros _. cbn [snd].
  assert (Hfound :
            Prisma.community_findUnique
              (mkDb (db_user db)
                    (db_community db
                       ++ [Community.mk (fresh w) v (generateSlug v) uid
                             (now w) (now w)])
                    (db_role db) (db_member db)) (fresh w)
            = Some (Community.mk (fresh w) v (generateSlug v) uid
                       (now w) (now w))).
  { unfold Prisma.community_findUnique in *. cbn [db_community].
    rewrite find_after_append, Hfresh. cbn [Community.id].
    now rewrite String.eqb_refl. }
  exists uid. split; [now split|]. split.
  - eexists. split; [exact Hfound|reflexivity].
  - unfold MemberRoute.checkIfUserIsCommunityAdmin.
    rewrite Hgate, Hfound. cbn. apply String.eqb_refl.
Qed.

Lemma creator_owns_new_community_witness :
  owns (snd (CommunityRoute.post Sample.env Sample.w Sample.db
               (CommunityRoute.mkPost "Chess Club" (Sample.token "bob"))))
       "bob" "x1".
Proof.
  destruct (creator_owns_new_community Sample.env Sample.w Sample.db
              (CommunityRoute.mkPost "Chess Club" (Sample.token "bob"))
              eq_refl) as (uid & [Hid _] & Howns & _).
  injection Hid as <-. exact Howns.
Defined.

(** ** Slugs *)

Lemma lower_unit_fixed (c : ascii) : lower_unit (lower_unit c) = lower_unit c.
Proof. destruct c as [[] [] [] [] [] [] [] []]; reflexivity. Qed.

Lemma lower_unit_space (c : ascii) : is_space (lower_unit c) = is_space c.
Proof. destruct c as [[] [] [] [] [] [] [] []]; reflexivity. Qed.

Lemma each_unit_drop_spaces (P : ascii -> Prop) (s : string) :
  each_unit P s -> each_unit P (drop_spaces s).
Proof.
  induction s as [|c rest IH]; cbn; [trivial|].
  intros [Hc Hrest]. destruct (is_space c); cbn; auto.
Qed.

Lemma each_unit_replace_spaces (P : ascii -> Prop) (s : string) :
  P "-"%char -> each_unit P s -> each_unit P (replace_spaces s).
Proof.
  intros Hhyphen. funelim (replace_spaces s); cbn; intros Hs.
  - exact I.
  - destruct Hs as [_ Hrest]. split; [exact Hhyphen|].
    now apply H, each_unit_drop_spaces.
  - destruct Hs as [Hc Hrest]. split; [exact Hc|]. now apply H.
Qed.

Lemma replace_spaces_no_space (s : string) :
  each_unit (fun c => is_space c = false) (replace_spaces s).
Proof.
  funelim (replace_spaces s); cbn; auto.
Qed.

Lemma replace_spaces_length (s : string) :
  (String.length (replace_spaces s) <= String.length s)%nat.
Proof.
  funelim (replace_spaces s); cbn; [lia| |lia].
  assert (Hdrop : forall t, (String.length (drop_spaces t)
                             <= String.length t)%nat).
  { induction t as [|c' t IH]; cbn; [lia|].
    destruct (is_space c'); cbn; lia. }
  specialize (Hdrop rest). lia.
Qed.

Lemma toLowerCase_lowered (s : string) :
  each_unit (fun c => lower_unit c = c) (toLowerCase s).
Proof.
  induction s as [|c rest IH]; cbn; [exact I|].
  split; [apply lower_unit_fixed|exact IH].
Qed.

Lemma toLowerCase_length (s : string) :
  String.length (toLowerCase s) = String.length s.
Proof. induction s as [|c rest IH]; cbn; congruence. Qed.

Lemma replace_spaces_nothing_to_do (s : string) :
  each_unit (fun c => is_space c = false) s -> replace_spaces s = s.
Proof.
  funelim (replace_spaces s); cbn; intros Hs.
  - reflexivity.
  - destruct Hs as [Hc _]. congruence.
  - destruct Hs as [_ Hrest]. f_equal. now apply H.
Qed.

Lemma toLowerCase_nothing_to_do (s : string) :
  each_unit (fun c => lower_unit c = c) s -> toLowerCase s = s.
Proof.
  induction s as [|c rest IH]; cbn; [reflexivity|].
  intros [Hc Hrest]. now rewrite Hc, IH.
Qed.

(** X13. A slug has no white space and no capital letter, and is not
    longer than the name it was made from. *)
Theorem slug_shape (name : string) :
  each_unit (fun c => is_space c = false /\ lower_unit c = c)
            (generateSlug name)
  /\ (String.length (generateSlug name) <= String.length name)%nat.
Proof.
  split.
  - unfold generateSlug.
    pose proof (replace_spaces_no_space (toLowerCase name)) as Hspace.
    pose proof (each_unit_replace_spaces (fun c => lower_unit c = c)
                  (toLowerCase name) eq_refl (toLowerCase_lowered name))
      as Hlower.
    revert Hspace Hlower.
    generalize (replace_spaces (toLowerCase name)) as slug.
    induction slug as [|c rest IH]; cbn; [trivial|].
    intros [Hc Hrest] [Hc' Hrest']. split; [now split|now apply IH].
  - unfold generateSlug.
    pose proof (replace_spaces_length (toLowerCase name)).
    rewrite toLowerCase_length in *. assumption.
Qed.

(** X14. Making a slug of a slug changes nothing: a name that is already
    a slug is stored as its own slug. *)
Theorem slug_of_slug (name : string) :
  generateSlug (generateSlug name) = generateSlug name.
Proof.
  unfold generateSlug at 1.
  rewrite toLowerCase_nothing_to_do.
  - apply replace_spaces_nothing_to_do. apply replace_spaces_no_space.
  - unfold generateSlug.
    apply each_unit_replace_spaces; [reflexivity|apply toLowerCase_lowered].
Qed.

(** ** Pages *)

Lemma list_page_from_one {A} (rows : list A) (page : Z) :
  1 <= page ->
  CommunityRoute.list_page rows page
  = Ok (firstn 10 (skipn (Z.to_nat ((page - 1) * 10)) rows),
        Z.of_nat (List.length rows),
        Math_ceil_div (Z.of_nat (List.length rows)) 10).
Proof.
  intros Hpage. unfold CommunityRoute.list_page, Prisma.findMany_page.
  destruct (Z.ltb_spec ((page - 1) * 10) 0); [lia|reflexivity].
Qed.

(** X15. From page 1 on, a page of a list endpoint holds ten rows, or
    what is left of the rows after the pages before it, and no row once
    the page number is past the number of pages; the answer still counts
    all rows. *)
Theorem page_sizes {A} (rows : list A) (page : Z) :
  1 <= page ->
  exists items pages,
    CommunityRoute.list_page rows page
    = Ok (items, Z.of_nat (List.length rows), pages)
    /\ Z.of_nat (List.length items)
       = Z.min 10 (Z.max 0 (Z.of_nat (List.length rows) - 10 * (page - 1)))
    /\ (pages < page -> items = []).
Proof.
  intros Hpage. rewrite (list_page_from_one rows page Hpage).
  eexists. eexists. split; [reflexivity|].
  assert (Hlen : Z.of_nat (List.length
                             (firstn 10 (skipn (Z.to_nat ((page - 1) * 10))
                                               rows)))
                 = Z.min 10 (Z.max 0 (Z.of_nat (List.length rows)
                                      - 10 * (page - 1)))).
  { rewrite length_firstn, length_skipn. lia. }
  split; [exact Hlen|].
  intros Hpast. rewrite ceil_div_10 in Hpast by lia.
  pose proof (Z.div_mod (Z.of_nat (List.length rows) + 9) 10 ltac:(lia)).
  pose proof (Z.mod_pos_bound (Z.of_nat (List.length rows) + 9) 10
                ltac:(lia)).
  apply length_zero_iff_nil. lia.
Qed.

Lemma page_sizes_witness :
  exists items pages,
    CommunityRoute.list_page Sample.roles25 3
    = Ok (items, Z.of_nat (List.length Sample.roles25), pages)
    /\ Z.of_nat (List.length items) = 5.
Proof.
  destruct (page_sizes Sample.roles25 3 ltac:(lia))
    as (items & pages & Hpage & Hlen & _).
  exists items, pages. split; [exact Hpage|]. rewrite Hlen. reflexivity.
Defined.

Lemma tens_cover {A} (n : nat) (rows : list A) :
  (List.length rows <= 10 * n)%nat ->
  List.concat (map (fun i => firstn 10 (skipn (10 * i) rows)) (seq 0 n)) = rows.
Proof.
  revert rows. induction n as [|n IH]; intros rows Hlen.
  - destruct rows; [reflexivity|cbn in Hlen; lia].
  - cbn [seq map List.concat]. rewrite <- seq_shift, map_map.
    rewrite (map_ext _ (fun i => firstn 10 (skipn (10 * i) (skipn 10 rows)))).
    + rewrite IH by (rewrite length_skipn; lia).
      change (skipn (10 * 0) rows) with rows. apply firstn_skipn.
    + intros i. rewrite skipn_skipn. do 2 f_equal. lia.
Qed.

(** X16. The pages of a list endpoint, from page 1 to the last page the
    answer announces, hold every row once and in order: put one after the
    other they are the rows. *)
Theorem pages_cover_the_rows {A} (rows : list A) :
  let pages := Math_ceil_div (Z.of_nat (List.length rows)) 10 in
  List.concat (map (fun p => page_items rows (Z.of_nat p))
              (seq 1 (Z.to_nat pages)))
  = rows.
Proof.
  cbv zeta. rewrite ceil_div_10 by lia.
  set (n := Z.to_nat ((Z.of_nat (List.length rows) + 9) / 10)).
  rewrite <- seq_shift, map_map.
  rewrite (map_ext _ (fun i => firstn 10 (skipn (10 * i) rows))).
  - apply tens_cover. subst n.
    pose proof (Z.div_mod (Z.of_nat (List.length rows) + 9) 10 ltac:(lia)).
    pose proof (Z.mod_pos_bound (Z.of_nat (List.length rows) + 9) 10
                  ltac:(lia)).
    lia.
  - intros i. unfold page_items.
    rewrite list_page_from_one by lia. do 2 f_equal. lia.
Qed.

(** ** The members of a community *)

Lemma traverse_all_ok {A B} (f : A -> Result B) (g : A -> B) (l : list A) :
  (forall a, In a l -> f a = Ok (g a)) -> traverse f l = Ok (map g l).
Proof.
  induction l as [|a l IH]; cbn; [reflexivity|].
  intros Hall. rewrite (Hall a (or_introl eq_refl)). cbn.
  rewrite IH by (intros; apply Hall; now right). reflexivity.
Qed.

Lemma in_page {A} (rows : list A) (n k : nat) (a : A) :
  In a (firstn n (skipn k rows)) -> In a rows.
Proof.
  intros Hin.
  rewrite <- (firstn_skipn k rows). apply in_or_app. right.
  rewrite <- (firstn_skipn n (skipn k rows)). apply in_or_app. now left.
Qed.

Lemma unique_ids_keeps (seen ids : list string) (i : string) :
  In i ids ->
  existsb (String.eqb i) seen = true
  \/ existsb (String.eqb i) (CommunityRoute.unique_ids seen ids) = true.
Proof.
  revert seen. induction ids as [|j ids IH]; intros seen; [intros []|].
  intros [->|Hin]; cbn [CommunityRoute.unique_ids].
  - destruct (existsb (String.eqb i) seen) eqn:Hseen; [now left|].
    right. cbn [existsb]. now rewrite String.eqb_refl.
  - destruct (existsb (String.eqb j) seen).
    + now apply IH.
    + destruct (IH (j :: seen) Hin) as [Hseen|Hlater].
      * cbn [existsb] in Hseen.
        apply orb_true_iff in Hseen as [Hij|Hseen]; [|now left].
        right. cbn [existsb]. now rewrite Hij.
      * right. cbn [existsb]. rewrite Hlater. apply orb_true_r.
Qed.

(** The roles fetched in one query for a page are enough to resolve the
    role of every member of the page. *)
Lemma batch_roles_suffice (db : Db) (members : list Member.t) (m : Member.t) :
  In m members ->
  let roleIds := CommunityRoute.unique_ids [] (map Member.role members) in
  let roles :=
    filter (fun r => existsb (String.eqb (Role.id r)) roleIds) (db_role db) in
  find (fun r => String.eqb (Role.id r) (Member.role m)) roles
  = Prisma.role_findUnique db (Member.role m).
Proof.
  intros Hin roleIds roles. subst roles. unfold Prisma.role_findUnique.
  assert (Hid : existsb (String.eqb (Member.role m)) roleIds = true).
  { destruct (unique_ids_keeps [] (map Member.role members) (Member.role m)
                (in_map _ _ _ Hin)) as [Hseen|Hkept];
      [discriminate Hseen|exact Hkept]. }
  induction (db_role db) as [|r rest IH]; cbn [filter find];
    [reflexivity|].
  destruct (String.eqb (Role.id r) (Member.role m)) eqn:Htest.
  - apply String.eqb_eq in Htest as Heq. rewrite Heq, Hid.
    cbn [find]. now rewrite Htest.
  - destruct (existsb (String.eqb (Role.id r)) roleIds); [|exact IH].
    cbn [find]. now rewrite Htest.
Qed.

(** Reading rows in the order of a key keeps the rows and puts them in
    ascending order. *)
Lemma insert_by_in {A} (key : A -> string) (row x : A) (sorted : list A) :
  In x (Prisma.insert_by key row sorted) <-> x = row \/ In x sorted.
Proof.
  induction sorted as [|r rest IH]; cbn; [intuition congruence|].
  destruct (String.leb (key row) (key r)); cbn; [intuition congruence|].
  rewrite IH. tauto.
Qed.

Lemma order_by_in {A} (key : A -> string) (rows : list A) (x : A) :
  In x (Prisma.order_by key rows) <-> In x rows.
Proof.
  unfold Prisma.order_by.
  induction rows as [|r rows IH]; cbn [fold_right In]; [tauto|].
  rewrite insert_by_in, IH. intuition congruence.
Qed.

Lemma insert_by_length {A} (key : A -> string) (row : A) (sorted : list A) :
  List.length (Prisma.insert_by key row sorted) = S (List.length sorted).
Proof.
  induction sorted as [|r rest IH]; cbn; [reflexivity|].
  destruct (String.leb (key row) (key r)); cbn; congruence.
Qed.

Lemma order_by_length {A} (key : A -> string) (rows : list A) :
  List.length (Prisma.order_by key rows) = List.length rows.
Proof.
  unfold Prisma.order_by.
  induction rows as [|r rows IH]; cbn [fold_right]; [reflexivity|].
  now rewrite insert_by_length, IH.
Qed.

Lemma insert_by_ascending {A} (key : A -> string) (row : A)
  (sorted : list A) :
  ascending key sorted -> ascending key (Prisma.insert_by key row sorted).
Proof.
  induction sorted as [|r rest IH]; cbn [Prisma.insert_by]; [intros; exact I|].
  intros Hsorted.
  destruct (String.leb (key row) (key r)) eqn:Hle; [now split|].
  assert (Hge : String.leb (key r) (key row) = true).
  { destruct (String.leb_total (key row) (key r)); congruence. }
  destruct rest as [|r' rest]; [cbn; rewrite Hge; now split|].
  destruct Hsorted as [Hrr' Hrest]. specialize (IH Hrest).
  cbn [Prisma.insert_by] in *.
  destruct (String.leb (key row) (key r')); split; assumption.
Qed.

Lemma order_by_ascending {A} (key : A -> string) (rows : list A) :
  ascending key (Prisma.order_by key rows).
Proof.
  unfold Prisma.order_by.
  induction rows as [|r rows IH]; [exact I|].
  cbn [fold_right]. now apply insert_by_ascending.
Qed.

(** Communities stored under the ids "cb", "ca", "cc", in that order, are
    listed by GET /community as "ca", "cb", "cc". *)
Example communities_listed_by_id :
  map (fun item => field item "id")
      (match response_data
               (CommunityRoute.get
                  (mkDb [Sample.alice]
                        [Community.mk "cb" "B" "b" "alice" 1 1;
                         Community.mk "ca" "A" "a" "alice" 2 2;
                         Community.mk "cc" "C" "c" "alice" 3 3] [] [])
                  NaN) with
       | VArr items => items
       | _ => []
       end)
  = [VStr "ca"; VStr "cb"; VStr "cc"].
Proof. reflexivity. Qed.

(** The answer of GET /community/:id/members on a store whose references
    resolve. *)
Lemma members_page_direct (db : Db) (id : string) (q : JsNumber) :
  references_resolve db ->
  1 <= or_1 q ->
  let in_community :=
    filter (fun m => String.eqb (Member.community m) id) (db_member db) in
  let total := Z.of_nat (List.length in_community) in
  CommunityRoute.get_members db id q
  = mkResponse 200
      (paginated total (Math_ceil_div total 10) (or_1 q)
         (map (member_item db)
              (page_items (Prisma.order_by Member.id in_community)
                          (or_1 q)))).
Proof.
  intros [_ Hmembers] Hpage in_community total.
  unfold CommunityRoute.get_members, page_items.
  fold in_community.
  rewrite (list_page_from_one (Prisma.order_by Member.id in_community)
             (or_1 q) Hpage).
  cbn [bind]. rewrite order_by_length. fold total.
  set (page := firstn 10 (skipn (Z.to_nat ((or_1 q - 1) * 10))
                                (Prisma.order_by Member.id in_community))).
  rewrite (traverse_all_ok _ (member_item db)); [reflexivity|].
  intros m Hin. unfold member_item, CommunityRoute.user_ref,
                  CommunityRoute.find_role.
  rewrite (batch_roles_suffice db page m Hin).
  assert (Hstored : In m (db_member db)).
  { apply in_page, order_by_in in Hin.
    now apply filter_In in Hin as [Hin _]. }
  destruct (Hmembers m Hstored) as (_ & Huser & _).
  destruct (Prisma.user_findUnique_id db (Member.user m)); [|contradiction].
  reflexivity.
Qed.

(** X17. On a store whose references resolve, GET /community/:id/members
    for a page from 1 on is answered 200; it counts the memberships of that
    community, pages them in ascending order of their ids, and each item
    of the page is the membership with its user and its role as a lookup of
    each would give them: fetching the roles of the page in one query and
    joining in memory loses nothing. *)
Theorem members_page_joined (db : Db) (id : string) (q : JsNumber) :
  references_resolve db ->
  1 <= or_1 q ->
  let in_community :=
    filter (fun m => String.eqb (Member.community m) id) (db_member db) in
  let by_id := Prisma.order_by Member.id in_community in
  let total := Z.of_nat (List.length in_community) in
  CommunityRoute.get_members db id q
  = mkResponse 200
      (paginated total (Math_ceil_div total 10) (or_1 q)
         (map (member_item db) (page_items by_id (or_1 q))))
  /\ ascending Member.id by_id
  /\ (forall m, In m by_id <-> In m in_community).
Proof.
  intros Hrefs Hpage in_community by_id total. split; [|split].
  - exact (members_page_direct db id q Hrefs Hpage).
  - apply order_by_ascending.
  - intros m. apply order_by_in.
Qed.

Lemma members_page_joined_witness :
  CommunityRoute.get_members Sample.db_two "c1" NaN
  = mkResponse 200
      (paginated 2 1 1
         [VObj [("id", VStr "m1"); ("community", VStr "c1");
                ("user", VObj [("id", VStr "bob"); ("name", VStr "Bob")]);
                ("role", VObj [("id", VStr "r1"); ("name", VStr "Member")]);
                ("created_at", VDate 60)];
          VObj [("id", VStr "m9"); ("community", VStr "c1");
                ("user", VObj [("id", VStr "carol"); ("name", VNull)]);
                ("role", VObj [("id", VStr "r1"); ("name", VStr "Member")]);
                ("created_at", VDate 55)]]).
Proof.
  destruct (members_page_joined Sample.db_two "c1" NaN) as (Hpage & _).
  - split.
    + intros c [<-|[]]. discriminate.
    + intros m [<-|[<-|[]]]; repeat split; discriminate.
  - cbn. lia.
  - rewrite Hpage. reflexivity.
Defined.

(** ** Roles *)

Lemma name_taken (roles : list Role.t) (name : string) :
  existsb (fun r => String.eqb (Role.name r) name) roles = true
  <-> In name (map Role.name roles).
Proof.
  rewrite existsb_exists, in_map_iff. split.
  - intros (r & Hin & Heq). apply String.eqb_eq in Heq. now exists r.
  - intros (r & Heq & Hin). exists r. split; [exact Hin|].
    now apply String.eqb_eq.
Qed.

(** X18. POST /role asks for no credential.  A name shorter than two
    characters is answered 400 INVALID_INPUT with the schema's own message,
    "Name should be at least 2 characters."; a name that a stored role
    already has is answered 500 INTERNAL_SERVER_ERROR; neither writes.  A
    new name of two characters or more, with an unused identifier, is
    stored and answered 200. *)
Theorem role_post_outcome (w : World) (db : Db) (name : string) :
  ((String.length name < 2)%nat ->
   RoleRoute.post w db name
   = (mkResponse 400
        (failure [VObj [("param", VStr "name");
                        ("message",
                         VStr "Name should be at least 2 characters.");
                        ("code", VStr "INVALID_INPUT")]]), db))
  /\ ((2 <= String.length name)%nat ->
      In name (map Role.name (db_role db)) ->
      RoleRoute.post w db name = (internal_server_error, db))
  /\ ((2 <= String.length name)%nat ->
      ~ In name (map Role.name (db_role db)) ->
      Prisma.role_findUnique db (fresh w) = None ->
      RoleRoute.post w db name
      = (mkResponse 200
           (VObj [("status", VBool true);
                  ("content",
                   VObj [("data",
                          VObj (role_obj (Role.mk (fresh w) name (now w)
                                                  (now w))))])]),
         mkDb (db_user db) (db_community db)
              (db_role db ++ [Role.mk (fresh w) name (now w) (now w)])
              (db_member db))).
Proof.
  unfold RoleRoute.post, RoleRoute.roleSchema, Prisma.role_create.
  cbn [Role.id Role.name].
  split; [|split]; intros Hlen;
    destruct (Z.ltb_spec (Z.of_nat (String.length name)) 2);
    try lia; try reflexivity.
  - intros Htaken. apply name_taken in Htaken.
    now rewrite Htaken, orb_true_r.
  - intros Hnew Hfresh. rewrite Hfresh. cbn [Prisma.is_some orb].
    destruct (existsb _ (db_role db)) eqn:Htaken; [|reflexivity].
    apply name_taken in Htaken. contradiction.
Qed.

Lemma role_post_outcome_witness :
  RoleRoute.post Sample.w Sample.db "M"
  = (mkResponse 400
       (failure [VObj [("param", VStr "name");
                       ("message",
                        VStr "Name should be at least 2 characters.");
                       ("code", VStr "INVALID_INPUT")]]), Sample.db)
  /\ RoleRoute.post Sample.w Sample.db "Member"
     = (internal_server_error, Sample.db)
  /\ db_role (snd (RoleRoute.post Sample.w Sample.db "Community Admin"))
     = [Sample.r1; Role.mk "x1" "Community Admin" 1000 1000].
Proof.
  destruct (role_post_outcome Sample.w Sample.db "M") as (Hshort & _ & _).
  destruct (role_post_outcome Sample.w Sample.db "Member")
    as (_ & Htaken & _).
  destruct (role_post_outcome Sample.w Sample.db "Community Admin")
    as (_ & _ & Hnew).
  split; [apply Hshort; cbn; lia|].
  split; [apply Htaken; [cbn; lia|now left]|].
  rewrite Hnew; [reflexivity|cbn; lia| |reflexivity].
  intros [Heq|[]]. discriminate Heq.
Defined.

(** ** Adding and removing members *)

(** X19. For the owner of the community, POST /member checks the role id
    before the user id: an unknown role is answered 404 with param "role"
    whatever the user id is, an unknown user behind a known role 404 with
    param "user"; neither writes. *)
Theorem add_member_missing_references (env : Env) (w : World) (db : Db)
  (req : MemberRoute.PostRequest) (uid : string) :
  identifies env w (MemberRoute.bearer req) uid ->
  owns db uid (MemberRoute.community req) ->
  (Prisma.role_findUnique db (MemberRoute.role req) = None ->
   MemberRoute.post env w db req
   = (resource_not_found "role" "Role not found.", db))
  /\ (Prisma.role_findUnique db (MemberRoute.role req) <> None ->
      Prisma.user_findUnique_id db (MemberRoute.user req) = None ->
      MemberRoute.post env w db req
      = (resource_not_found "user" "User not found.", db)).
Proof.
  intros Hid Howns.
  apply (admin_check_owner env w db _ _ _ Hid) in Howns as Hadmin.
  destruct Howns as (c & Hc & _).
  unfold MemberRoute.post. rewrite Hadmin, Hc. cbn [negb].
  split.
  - now intros ->.
  - intros Hrole ->.
    destruct (Prisma.role_findUnique db _); [reflexivity|contradiction].
Qed.

Lemma add_member_missing_references_witness :
  MemberRoute.post Sample.env Sample.w Sample.db
    (MemberRoute.mkPost "c1" "nobody" "r9" (Sample.token "alice"))
  = (resource_not_found "role" "Role not found.", Sample.db)
  /\ MemberRoute.post Sample.env Sample.w Sample.db
       (MemberRoute.mkPost "c1" "nobody" "r1" (Sample.token "alice"))
     = (resource_not_found "user" "User not found.", Sample.db).
Proof.
  assert (Halice : identifies Sample.env Sample.w (Sample.token "alice")
                     "alice") by (split; [reflexivity|discriminate]).
  assert (Howns : owns Sample.db "alice" "c1")
    by (exists Sample.c1; split; reflexivity).
  split.
  - apply (add_member_missing_references Sample.env Sample.w Sample.db
             (MemberRoute.mkPost "c1" "nobody" "r9" (Sample.token "alice"))
             "alice" Halice Howns).
    reflexivity.
  - apply (add_member_missing_references Sample.env Sample.w Sample.db
             (MemberRoute.mkPost "c1" "nobody" "r1" (Sample.token "alice"))
             "alice" Halice Howns).
    + discriminate.
    + reflexivity.
Defined.

Lemma find_after_removal (rows : list Member.t) (gone k : string) :
  find (fun m => String.eqb (Member.id m) k)
       (filter (fun m => negb (String.eqb (Member.id m) gone)) rows)
  = if String.eqb k gone then None
    else find (fun m => String.eqb (Member.id m) k) rows.
Proof.
  induction rows as [|m rows IH]; cbn [filter find];
    [now destruct (String.eqb k gone)|].
  destruct (String.eqb_spec (Member.id m) gone) as [Hgone|Hstays];
    cbn [negb find].
  - rewrite IH. destruct (String.eqb_spec k gone) as [_|Hother];
      [reflexivity|].
    destruct (String.eqb_spec (Member.id m) k); [congruence|reflexivity].
  - destruct (String.eqb_spec (Member.id m) k) as [Hhit|_]; [|exact IH].
    destruct (String.eqb_spec k gone); [congruence|reflexivity].
Qed.

(** X20. DELETE /member/:id for an id that no membership has is answered
    404 RESOURCE_NOT_FOUND and writes nothing.  Otherwise the answer is 200
    and afterwards no membership has that id, every other membership is
    found as before, and users, communities and roles are untouched. *)
Theorem delete_outcome (env : Env) (w : World) (db : Db)
  (req : MemberRoute.DeleteRequest) :
  (Prisma.member_findUnique db (MemberRoute.id req) = None ->
   MemberRoute.delete env w db req
   = (mkResponse 404
        (failure [VObj [("message", VStr "Member not found.");
                        ("code", VStr "RESOURCE_NOT_FOUND")]]), db))
  /\ (Prisma.member_findUnique db (MemberRoute.id req) <> None ->
      let db' := snd (MemberRoute.delete env w db req) in
      status (fst (MemberRoute.delete env w db req)) = 200
      /\ Prisma.member_findUnique db' (MemberRoute.id req) = None
      /\ (forall k, k <> MemberRoute.id req ->
                    Prisma.member_findUnique db' k
                    = Prisma.member_findUnique db k)
      /\ db_user db' = db_user db
      /\ db_community db' = db_community db
      /\ db_role db' = db_role db).
Proof.
  split.
  - intros Hnone. unfold MemberRoute.delete. now rewrite Hnone.
  - intros Hsome.
    destruct (Prisma.member_findUnique db (MemberRoute.id req)) as [m|] eqn:Hm;
      [|contradiction].
    rewrite (delete_never_refuses env w db req m Hm). cbn [fst snd status].
    unfold Prisma.member_findUnique. cbn [db_member db_user db_community
                                           db_role].
    repeat split.
    + now rewrite find_after_removal, String.eqb_refl.
    + intros k Hother. rewrite find_after_removal.
      apply String.eqb_neq in Hother. now rewrite Hother.
Qed.

Lemma delete_outcome_witness :
  MemberRoute.delete Sample.env Sample.w Sample.db
    (MemberRoute.mkDelete "m9" VUndefined)
  = (mkResponse 404
       (failure [VObj [("message", VStr "Member not found.");
                       ("code", VStr "RESOURCE_NOT_FOUND")]]), Sample.db)
  /\ Prisma.member_findUnique
       (snd (MemberRoute.delete Sample.env Sample.w Sample.db
               (MemberRoute.mkDelete "m1" VUndefined))) "m1" = None.
Proof.
  split.
  - apply (delete_outcome Sample.env Sample.w Sample.db
             (MemberRoute.mkDelete "m9" VUndefined)).
    reflexivity.
  - apply (delete_outcome Sample.env Sample.w Sample.db
             (MemberRoute.mkDelete "m1" VUndefined)).
    discriminate.
Defined.

(** A sign-up that fails the schema on all three fields reports the three
    of them. *)
Example signup_reports_every_field :
  UserRoute.signup Sample.zod_email Sample.bcrypt_hash Sample.env Sample.w
    Sample.db (UserRoute.mkSignUp "D" "dave" "pw")
  = (invalid_input [too_small "name" "2"; mkIssue ["email"] "Invalid email";
                    too_small "password" "6"], Sample.db).
Proof. reflexivity. Qed.

Lemma post_answered_200 (env : Env) (w : World) (db : Db)
  (req : MemberRoute.PostRequest) :
  status (fst (MemberRoute.post env w db req)) = 200 ->
  MemberRoute.post env w db req
  = (MemberRoute.created
       (Member.mk (fresh w) (MemberRoute.community req)
          (MemberRoute.user req) (MemberRoute.role req) (now w)),
     mkDb (db_user db) (db_community db) (db_role db)
          (db_member db
             ++ [Member.mk (fresh w) (MemberRoute.community req)
                   (MemberRoute.user req) (MemberRoute.role req) (now w)]))
  /\ Prisma.member_findUnique db (fresh w) = None.
Proof.
  intros Hok.
  destruct (post_outcome env w db req)
    as [[_ Hresp]|(Hpost & _ & _ & _ & _ & _ & Hfresh)]; [|now split].
  exfalso. revert Hok Hresp. unfold MemberRoute.post.
  destruct (negb _); [discriminate|].
  destruct (Prisma.community_findUnique db _); [|discriminate].
  destruct (Prisma.role_findUnique db _); [|discriminate].
  destruct (Prisma.user_findUnique_id db _); [|discriminate].
  destruct (Prisma.member_findFirst db _ _); [discriminate|].
  unfold Prisma.member_create.
  destruct (Prisma.is_some _); [discriminate|].
  destruct (negb _); [discriminate|].
  cbn. congruence.
Qed.

Lemma removal_of_unused_id (rows : list Member.t) (k : string) :
  find (fun m => String.eqb (Member.id m) k) rows = None ->
  filter (fun m => negb (String.eqb (Member.id m) k)) rows = rows.
Proof.
  induction rows as [|m rows IH]; cbn; [reflexivity|].
  destruct (String.eqb (Member.id m) k); [discriminate|].
  cbn. intros Hnone. now rewrite IH.
Qed.

(** X21. Adding then removing.  After a POST /member answered 200, a
    DELETE /member/:id for the id of the new membership, with any bearer
    word and at any time, is answered 200 and gives back the store as it
    was before the membership was added. *)
Theorem add_then_delete_restores (env env' : Env) (w w' : World) (db : Db)
  (req : MemberRoute.PostRequest) (bearer : JsVal) :
  status (fst (MemberRoute.post env w db req)) = 200 ->
  MemberRoute.delete env' w' (snd (MemberRoute.post env w db req))
    (MemberRoute.mkDelete (fresh w) bearer)
  = (mkResponse 200 (VObj [("status", VBool true)]), db).
Proof.
  intros Hok. destruct (post_answered_200 env w db req Hok) as [-> Hfresh].
  cbn [snd].
  set (m := Member.mk _ _ _ _ _).
  rewrite (delete_never_refuses env' w' _ _ m).
  - cbn [db_user db_community db_role db_member MemberRoute.id].
    rewrite filter_app, (removal_of_unused_id _ _ Hfresh).
    cbn [filter Member.id m]. rewrite String.eqb_refl. cbn [negb].
    rewrite app_nil_r. now destruct db.
  - unfold Prisma.member_findUnique in *.
    cbn [db_member MemberRoute.id].
    rewrite find_after_append, Hfresh. cbn [Member.id m].
    now rewrite String.eqb_refl.
Qed.

Lemma add_then_delete_restores_witness :
  MemberRoute.delete Sample.env (mkWorld 2000 "x2")
    (snd (MemberRoute.post Sample.env Sample.w Sample.db
            (MemberRoute.mkPost "c1" "carol" "r1" (Sample.token "alice"))))
    (MemberRoute.mkDelete "x1" VUndefined)
  = (mkResponse 200 (VObj [("status", VBool true)]), Sample.db).
Proof.
  apply (add_then_delete_restores Sample.env Sample.env Sample.w
           (mkWorld 2000 "x2") Sample.db
           (MemberRoute.mkPost "c1" "carol" "r1" (Sample.token "alice"))
           VUndefined).
  reflexivity.
Defined.

Lemma member_role_names_ok (db : Db) (ms : list Member.t) :
  (forall m, In m ms ->
             Prisma.community_findUnique db (Member.community m) <> None
             /\ Prisma.role_findUnique db (Member.role m) <> None) ->
  exists names, MemberRoute.member_role_names db ms = Ok names.
Proof.
  induction ms as [|m ms IH]; intros Hall; [now exists []|].
  destruct (Hall m (or_introl eq_refl)) as [Hc Hr].
  destruct IH as [names Hnames]; [intros; apply Hall; now right|].
  cbn. destruct (Prisma.community_findUnique db _); [|contradiction].
  destruct (Prisma.role_findUnique db _) as [r|]; [|contradiction].
  rewrite Hnames. cbn. now eexists.
Qed.

(** X22. The check behind DELETE /member/:id looks at every community: on
    a store whose references resolve, for a bearer word that identifies a
    stored user, the promise fulfils with a boolean, which is [true]
    exactly when that user holds, in some community, a membership whose
    role is named "Community Admin" or "Community Moderator". *)
Theorem admin_or_moderator_anywhere (env : Env) (w : World) (db : Db)
  (bearer : JsVal) (uid : string) :
  references_resolve db ->
  identifies env w bearer uid ->
  Prisma.user_findUnique_id db uid <> None ->
  exists b,
    MemberRoute.checkIfUserIsCommunityAdminOrModerator env w db
      (accessToken_of bearer) = VPromise (Some (VBool b))
    /\ (b = true <-> holds_admin_or_moderator db uid).
Proof.
  intros [_ Hmembers] Hid Huser.
  destruct (member_role_names_ok db (MemberRoute.members_of_user db uid))
    as [names Hnames].
  { intros m Hin. apply filter_In in Hin as [Hin _].
    destruct (Hmembers m Hin) as (Hc & _ & Hr). now split. }
  assert (Hout : exists b,
             MemberRoute.adminOrModerator_outcome env w db
               (accessToken_of bearer) = Some (VBool b)).
  { unfold MemberRoute.adminOrModerator_outcome.
    destruct Hid as [-> _].
    destruct (Prisma.user_findUnique_id db uid); [|contradiction].
    rewrite Hnames. now eexists. }
  destruct Hout as [b Hout]. exists b. split.
  - unfold MemberRoute.checkIfUserIsCommunityAdminOrModerator.
    now rewrite Hout.
  - exact (adminOrModerator_outcome_spec env w db bearer uid b Hid Hout).
Qed.

Lemma admin_or_moderator_anywhere_witness :
  exists b,
    MemberRoute.checkIfUserIsCommunityAdminOrModerator Sample.env Sample.w
      Sample.db (accessToken_of (Sample.token "bob"))
    = VPromise (Some (VBool b))
    /\ (b = true <-> holds_admin_or_moderator Sample.db "bob").
Proof.
  apply (admin_or_moderator_anywhere Sample.env Sample.w Sample.db
           (Sample.token "bob") "bob").
  - split.
    + intros c [<-|[]]. discriminate.
    + intros m [<-|[]]. repeat split; discriminate.
  - split; [reflexivity|discriminate].
  - discriminate.
Defined.

(** ** The store stays consistent *)

Lemma key_taken {A} (key : A -> string) (rows : list A) (k : string) :
  existsb (fun r => String.eqb (key r) k) rows = true <-> In k (map key rows).
Proof.
  rewrite existsb_exists, in_map_iff. split.
  - intros (r & Hin & Heq). apply String.eqb_eq in Heq. now exists r.
  - intros (r & Heq & Hin). exists r. split; [exact Hin|].
    now apply String.eqb_eq.
Qed.

Lemma distinct_after_append {A} (key : A -> string) (rows : list A)
  (row : A) :
  NoDup (map key rows) -> ~ In (key row) (map key rows) ->
  NoDup (map key (rows ++ [row])).
Proof.
  intros Hrows Hnew. rewrite map_app. now apply NoDup_snoc.
Qed.

Lemma distinct_after_removal {A} (key : A -> string) (stays : A -> bool)
  (rows : list A) :
  NoDup (map key rows) -> NoDup (map key (filter stays rows)).
Proof.
  induction rows as [|r rows IH]; cbn; [trivial|].
  intros Hnd. apply NoDup_cons_iff in Hnd as [Hr Hrows].
  destruct (stays r); cbn; [|now apply IH].
  constructor; [|now apply IH].
  intros Hin. apply Hr. apply in_map_iff in Hin as (r' & Hkey & Hin).
  apply filter_In in Hin as [Hin _]. rewrite <- Hkey. now apply in_map.
Qed.

Lemma still_found {A} (test : A -> bool) (rows : list A) (row : A) :
  find test rows <> None -> find test (rows ++ [row]) <> None.
Proof.
  intros Hfound. rewrite find_after_append.
  destruct (find test rows); [discriminate|contradiction].
Qed.

(** What each writing handler can do to the store. *)
Lemma signup_write zod_email bcrypt_hash env w db body :
  snd (UserRoute.signup zod_email bcrypt_hash env w db body) = db
  \/ exists u,
       snd (UserRoute.signup zod_email bcrypt_hash env w db body)
       = mkDb (db_user db ++ [u]) (db_community db) (db_role db)
              (db_member db)
       /\ Prisma.user_findUnique_id db (User.id u) = None
       /\ Prisma.user_findUnique_email db (User.email u) = None.
Proof.
  unfold UserRoute.signup, Prisma.user_create.
  destruct (UserRoute.signUpSchema zod_email body); [|now left].
  destruct (Prisma.user_findUnique_email db (UserRoute.email body)) eqn:Hmail;
    [now left|].
  cbn [User.id User.email]. try rewrite Hmail.
  destruct (Prisma.user_findUnique_id db (fresh w)) eqn:Hid; [now left|].
  cbn [Prisma.is_some orb]. cbn [User.id]. right.
  exists (User.mk (fresh w) (Some (UserRoute.name body))
            (UserRoute.email body) (bcrypt_hash (UserRoute.password body))
            (now w)).
  destruct (UserRoute.generateAccessToken env w (fresh w)); cbn [snd];
    (split; [reflexivity|split; assumption]).
Qed.

Lemma community_write env w db req :
  snd (CommunityRoute.post env w db req) = db
  \/ exists c,
       snd (CommunityRoute.post env w db req)
       = mkDb (db_user db) (db_community db ++ [c]) (db_role db)
              (db_member db)
       /\ ~ In (Community.id c) (map Community.id (db_community db))
       /\ ~ In (Community.slug c) (map Community.slug (db_community db))
       /\ Prisma.user_findUnique_id db (Community.owner c) <> None.
Proof.
  unfold CommunityRoute.post, Prisma.community_create.
  destruct (CommunityRoute.communitySchema _) as [v|[]]; try now left.
  destruct (negb (truthy _)); [now left|].
  destruct (getUserIdFromAccessToken _ _ _) as [| | | |uid| | | | |];
    try now left.
  cbn [Community.id Community.slug Community.owner].
  destruct (Prisma.community_findUnique db (fresh w)) eqn:Hid; [now left|].
  cbn [Prisma.is_some orb].
  destruct (existsb _ (db_community db)) eqn:Hslug; [now left|].
  destruct (Prisma.user_findUnique_id db uid) eqn:Howner; [|now left].
  cbn [Prisma.is_some negb snd]. right. eexists.
  split; [reflexivity|]. cbn [Community.id Community.slug Community.owner].
  repeat split.
  - now apply find_none_key in Hid.
  - intros Hin. apply (key_taken Community.slug) in Hin. congruence.
  - congruence.
Qed.

Lemma role_write w db name :
  snd (RoleRoute.post w db name) = db
  \/ exists r,
       snd (RoleRoute.post w db name)
       = mkDb (db_user db) (db_community db) (db_role db ++ [r])
              (db_member db)
       /\ ~ In (Role.id r) (map Role.id (db_role db))
       /\ ~ In (Role.name r) (map Role.name (db_role db)).
Proof.
  unfold RoleRoute.post, Prisma.role_create.
  destruct (RoleRoute.roleSchema name); [|now left].
  cbn [Role.id Role.name].
  destruct (Prisma.role_findUnique db (fresh w)) eqn:Hid; [now left|].
  cbn [Prisma.is_some orb].
  destruct (existsb _ (db_role db)) eqn:Hname; [now left|].
  right. eexists. split; [reflexivity|]. cbn [Role.id Role.name]. split.
  - now apply find_none_key in Hid.
  - intros Hin. apply (key_taken Role.name) in Hin. congruence.
Qed.

Lemma member_delete_write env w db req :
  snd (MemberRoute.delete env w db req) = db
  \/ snd (MemberRoute.delete env w db req)
     = mkDb (db_user db) (db_community db) (db_role db)
            (filter (fun m => negb (String.eqb (Member.id m)
                                               (MemberRoute.id req)))
                    (db_member db)).
Proof.
  destruct (Prisma.member_findUnique db (MemberRoute.id req)) as [m|] eqn:Hm.
  - right. now rewrite (delete_never_refuses env w db req m Hm).
  - left. unfold MemberRoute.delete. now rewrite Hm.
Qed.

Section Consistency.

Variable zod_email : string -> bool.
Variable bcrypt_hash : string -> string.
Variable bcrypt_compareSync : string -> string -> bool.

Local Abbreviation serve :=
  (handle zod_email bcrypt_hash bcrypt_compareSync).

(** A request keeps the keys of the store distinct. *)
Lemma keys_step (env : Env) (w : World) (db : Db)
  (r : Request) :
  keys_unique db -> keys_unique (snd (serve env w db r)).
Proof.
  intros Hkeys. pose proof Hkeys as (Hu & He & Hc & Hs & Hr & Hn & Hm).
  destruct r; cbn [handle snd]; try assumption.
  - destruct (signup_write zod_email bcrypt_hash env w db body)
      as [->|(u & -> & Hid & Hmail)]; [assumption|].
    apply find_none_key in Hid, Hmail.
    unfold keys_unique. cbn [db_user db_community db_role db_member].
    repeat split; try assumption; now apply distinct_after_append.
  - destruct (community_write env w db req)
      as [->|(c & -> & Hid & Hslug & _)]; [assumption|].
    unfold keys_unique. cbn [db_user db_community db_role db_member].
    repeat split; try assumption; now apply distinct_after_append.
  - destruct (role_write w db name) as [->|(r & -> & Hid & Hname)];
      [assumption|].
    unfold keys_unique. cbn [db_user db_community db_role db_member].
    repeat split; try assumption; now apply distinct_after_append.
  - destruct (post_outcome env w db req)
      as [[-> _]|(-> & _ & _ & _ & _ & _ & Hfresh)]; [assumption|].
    apply find_none_key in Hfresh.
    unfold keys_unique. cbn [snd db_user db_community db_role db_member].
    repeat split; try assumption. now apply distinct_after_append.
  - destruct (member_delete_write env w db req) as [->| ->]; [assumption|].
    unfold keys_unique. cbn [db_user db_community db_role db_member].
    repeat split; try assumption. now apply distinct_after_removal.
Qed.

(** A request keeps the references of the store resolving. *)
Lemma references_step (env : Env) (w : World) (db : Db)
  (r : Request) :
  references_resolve db -> references_resolve (snd (serve env w db r)).
Proof.
  intros Hrefs. pose proof Hrefs as [Howners Hmembers].
  destruct r; cbn [handle snd]; try assumption.
  - destruct (signup_write zod_email bcrypt_hash env w db body)
      as [->|(u & -> & _)]; [assumption|].
    split.
    + intros c Hin. apply still_found. now apply Howners.
    + intros m Hin. destruct (Hmembers m Hin) as (Hc & Hu & Hr).
      repeat split; try assumption. now apply still_found.
  - destruct (community_write env w db req)
      as [->|(c & -> & _ & _ & Howner)]; [assumption|].
    split.
    + intros c' Hin. cbn [db_community] in Hin.
      apply in_app_or in Hin as [Hin|[<-|[]]];
        [now apply Howners|exact Howner].
    + intros m Hin. destruct (Hmembers m Hin) as (Hc & Hu & Hr).
      repeat split; try assumption. now apply still_found.
  - destruct (role_write w db name) as [->|(r & -> & _)]; [assumption|].
    split; [exact Howners|].
    intros m Hin. destruct (Hmembers m Hin) as (Hc & Hu & Hr).
    repeat split; try assumption. now apply still_found.
  - destruct (post_outcome env w db req)
      as [[-> _]|(-> & _ & Hc & Hr & Hu & _)]; [assumption|].
    split; [exact Howners|].
    intros m Hin. cbn [snd db_member] in Hin.
    apply in_app_or in Hin as [Hin|[<-|[]]]; [now apply Hmembers|].
    repeat split; assumption.
  - destruct (member_delete_write env w db req) as [->| ->]; [assumption|].
    split; [exact Howners|].
    intros m Hin. cbn [db_member] in Hin.
    apply filter_In in Hin as [Hin _]. now apply Hmembers.
Qed.

(** X23. Every request keeps the store consistent: the keys stay distinct
    (user ids and emails, community ids and slugs, role ids and names,
    membership ids), the owner of each community and the community, user
    and role of each membership stay stored, and no pair of community and
    user gets a second membership. *)
Theorem handle_keeps_consistent (env : Env) (w : World) (db : Db)
  (r : Request) :
  consistent db -> consistent (snd (serve env w db r)).
Proof.
  intros (Hkeys & Hrefs & Hpairs). split; [|split].
  - now apply keys_step.
  - now apply references_step.
  - now apply handle_keeps_unique.
Qed.

(** X24. A store that was empty and has served any sequence of requests,
    each at its own time and with its own fresh identifier, is
    consistent. *)
Theorem served_store_consistent (env : Env) (trace : list (World * Request)) :
  consistent (run zod_email bcrypt_hash bcrypt_compareSync env trace empty_db).
Proof.
  assert (Hempty : consistent empty_db).
  { split; [|split].
    - unfold keys_unique. cbn. repeat split; apply NoDup_nil.
    - split; intros ? [].
    - apply NoDup_nil. }
  revert Hempty. generalize empty_db as db.
  induction trace as [|[w r] trace IH]; intros db Hdb; [exact Hdb|].
  cbn [run]. apply IH. destruct Hdb as (Hkeys & Hrefs & Hpairs).
  split; [|split].
  - now apply keys_step.
  - now apply references_step.
  - now apply handle_keeps_unique.
Qed.

End Consistency.

Lemma handle_keeps_consistent_witness :
  consistent Sample.db
  /\ consistent
       (snd (handle Sample.zod_email Sample.bcrypt_hash
               Sample.bcrypt_compareSync Sample.env Sample.w Sample.db
               (PostMember
                  (MemberRoute.mkPost "c1" "carol" "r1"
                     (Sample.token "alice"))))).
Proof.
  assert (Hsample : consistent Sample.db).
  { split; [|split].
    - unfold keys_unique. cbn.
      repeat split; repeat constructor; cbn; intuition discriminate.
    - split.
      + intros c [<-|[]]. discriminate.
      + intros m [<-|[]]. repeat split; discriminate.
    - unfold unique_membership. cbn. repeat constructor. intros []. }
  split; [exact Hsample|].
  apply (handle_keeps_consistent Sample.zod_email Sample.bcrypt_hash
           Sample.bcrypt_compareSync Sample.env Sample.w Sample.db).
  exact Hsample.
Defined.

(** ** What was written can be read back *)

Lemma community_created (env : Env) (w : World) (db : Db)
  (req : CommunityRoute.PostRequest) :
  status (fst (CommunityRoute.post env w db req)) = 201 ->
  exists uid,
    getUserIdFromAccessToken env w
      (accessToken_of (CommunityRoute.bearer req)) = VStr uid
    /\ uid <> ""
    /\ let c := Community.mk (fresh w) (CommunityRoute.name req)
                  (generateSlug (CommunityRoute.name req)) uid (now w)
                  (now w) in
       CommunityRoute.post env w db req
       = (mkResponse 201
            (VObj [("status", VBool true);
                   ("content", VObj [("data", VObj (community_obj c))])]),
          mkDb (db_user db) (db_community db ++ [c]) (db_role db)
               (db_member db)).
Proof.
  unfold CommunityRoute.post, Prisma.community_create.
  destruct (CommunityRoute.communitySchema _) as [v|[]] eqn:Hschema;
    try discriminate.
  assert (v = CommunityRoute.name req) as ->.
  { unfold CommunityRoute.communitySchema in Hschema.
    destruct (_ <? 2); congruence. }
  destruct (negb (truthy _)) eqn:Htruthy; [discriminate|].
  destruct (getUserIdFromAccessToken _ _ _) as [| | | |uid| | | | |];
    try discriminate.
  assert (Hne : uid <> "").
  { intros ->. cbn in Htruthy. discriminate Htruthy. }
  destruct (_ || _); [discriminate|].
  destruct (negb (Prisma.is_some _)); [discriminate|].
  intros _. exists uid. repeat split. exact Hne.
Qed.

(** X25. Creating then listing.  After a POST /community answered 201,
    GET /community/me/owner with the same bearer word, while it still
    verifies to the same user, is answered 200 and the community object of
    the 201 answer is among its items. *)
Theorem created_community_is_listed (env : Env) (w w' : World) (db : Db)
  (req : CommunityRoute.PostRequest) :
  status (fst (CommunityRoute.post env w db req)) = 201 ->
  getUserIdFromAccessToken env w'
    (accessToken_of (CommunityRoute.bearer req))
  = getUserIdFromAccessToken env w
      (accessToken_of (CommunityRoute.bearer req)) ->
  let listing :=
    CommunityRoute.get_me_owner env w'
      (snd (CommunityRoute.post env w db req)) (CommunityRoute.bearer req) in
  status listing = 200
  /\ exists items,
       response_data listing = VArr items
       /\ In (response_data (fst (CommunityRoute.post env w db req))) items.
Proof.
  intros Hok Hsame listing. subst listing.
  destruct (community_created env w db req Hok) as (uid & Hid & Hne & Hpost).
  cbv zeta in Hpost. rewrite Hpost. cbn [fst snd].
  unfold CommunityRoute.get_me_owner. rewrite Hsame, Hid.
  cbn [truthy]. apply String.eqb_neq in Hne. rewrite Hne. cbn [negb].
  split; [reflexivity|]. eexists. split; [reflexivity|].
  cbn [db_community]. rewrite filter_app, map_app.
  apply in_or_app. right. cbn [filter Community.owner].
  rewrite String.eqb_refl. now left.
Qed.

Lemma created_community_is_listed_witness :
  exists items,
    response_data
      (CommunityRoute.get_me_owner Sample.env Sample.w
         (snd (CommunityRoute.post Sample.env Sample.w Sample.db
                 (CommunityRoute.mkPost "Chess Club" (Sample.token "alice"))))
         (Sample.token "alice")) = VArr items
    /\ List.length items = 2%nat.
Proof.
  destruct (created_community_is_listed Sample.env Sample.w Sample.w
              Sample.db
              (CommunityRoute.mkPost "Chess Club" (Sample.token "alice"))
              eq_refl eq_refl) as (_ & items & Hitems & _).
  exists items. split; [exact Hitems|].
  cbn in Hitems. injection Hitems as <-. reflexivity.
Defined.

(** X26. Adding then listing.  On a store whose references resolve, after
    a POST /member answered 200 the member list of that community counts
    one membership more, and, when the community had fewer than ten
    members, its first page holds the members it had and the new one, with
    user and role resolved, in ascending order of their ids. *)
Theorem added_member_is_listed (env : Env) (w : World) (db : Db)
  (req : MemberRoute.PostRequest) :
  references_resolve db ->
  status (fst (MemberRoute.post env w db req)) = 200 ->
  let db' := snd (MemberRoute.post env w db req) in
  let c := MemberRoute.community req in
  let before :=
    filter (fun m => String.eqb (Member.community m) c) (db_member db) in
  let m := Member.mk (fresh w) c (MemberRoute.user req)
             (MemberRoute.role req) (now w) in
  let by_id := Prisma.order_by Member.id (before ++ [m]) in
  reported_total (CommunityRoute.get_members db' c (Num 1))
  = VNum (Z.of_nat (List.length before) + 1)
  /\ ((List.length before < 10)%nat ->
      response_data (CommunityRoute.get_members db' c (Num 1))
      = VArr (map (member_item db') by_id)
      /\ In m by_id
      /\ ascending Member.id by_id).
Proof.
  intros Hrefs Hok db' c before m by_id.
  assert (Hrefs' : references_resolve db').
  { exact (references_step (fun _ => true) (fun s => s) (fun _ _ => true)
             env w db (PostMember req) Hrefs). }
  destruct (post_answered_200 env w db req Hok) as [Hpost _].
  assert (Hafter :
            filter (fun m => String.eqb (Member.community m) c)
                   (db_member db') = (before ++ [m])%list).
  { subst db'. rewrite Hpost. cbn [snd db_member].
    rewrite filter_app. cbn [filter Member.community].
    now rewrite String.eqb_refl. }
  rewrite (members_page_direct db' c (Num 1) Hrefs' ltac:(cbn; lia)).
  cbv zeta. rewrite Hafter. fold by_id.
  assert (Hlen : List.length (before ++ [m])
                 = S (List.length before)).
  { rewrite length_app. cbn. lia. }
  rewrite Hlen. split.
  - unfold reported_total. cbn. f_equal. lia.
  - intros Hfew. split; [|split].
    + unfold response_data, page_items.
      rewrite list_page_from_one by (cbn; lia). cbn [or_1 Z.eqb].
      change (Z.to_nat ((1 - 1) * 10)) with 0%nat. cbn [skipn].
      rewrite firstn_all2
        by (unfold by_id; rewrite order_by_length, Hlen; lia).
      reflexivity.
    + apply order_by_in, in_or_app. right. now left.
    + apply order_by_ascending.
Qed.

Lemma added_member_is_listed_witness :
  response_data
    (CommunityRoute.get_members
       (snd (MemberRoute.post Sample.env (mkWorld 1000 "a7") Sample.db
               (MemberRoute.mkPost "c1" "carol" "r1" (Sample.token "alice"))))
       "c1" (Num 1))
  = VArr [VObj [("id", VStr "a7"); ("community", VStr "c1");
                ("user", VObj [("id", VStr "carol"); ("name", VNull)]);
                ("role", VObj [("id", VStr "r1"); ("name", VStr "Member")]);
                ("created_at", VDate 1000)];
          VObj [("id", VStr "m1"); ("community", VStr "c1");
                ("user", VObj [("id", VStr "bob"); ("name", VStr "Bob")]);
                ("role", VObj [("id", VStr "r1"); ("name", VStr "Member")]);
                ("created_at", VDate 60)]].
Proof.
  destruct (added_member_is_listed Sample.env (mkWorld 1000 "a7") Sample.db
              (MemberRoute.mkPost "c1" "carol" "r1" (Sample.token "alice")))
    as [_ Hpage].
  - split.
    + intros c [<-|[]]. discriminate.
    + intros m [<-|[]]. repeat split; discriminate.
  - reflexivity.
  - destruct Hpage as (Hdata & _); [cbn; lia|].
    refine (eq_trans Hdata _). reflexivity.
Defined.
